(** * Disaster-response pipeline: ETL ([process_data.py]) and training
      ([train_classifier.py]) as a shallow embedding.

    Python values are modelled as follows.
    - [str] is [string] (a sequence of 8-bit characters; only the ASCII
      behaviour of [strip], [lower] and [int] is modelled).
    - A call either returns or raises: [result A] with the exception classes
      the two scripts can reach.
    - The NLTK functions ([sent_tokenize], [word_tokenize],
      [WordNetLemmatizer.lemmatize], [pos_tag]) are library code: they are
      the fields of a record [nltk] that the functions take as argument.
    - F-beta scores are exact rationals ([Q]); the geometric mean is kept
      symbolically as the product of the scores and their number.
    - The SQLite files are a finite map from engine URL to the tables of
      that database. *)

From Stdlib Require Import QArith Lqa.
From stdpp Require Import gmap strings list.
From Stdlib Require Import Ascii String.

Local Open Scope string_scope.

(** ** Python run-time values shared by both scripts *)
Module Py.

Inductive exn : Type :=
| IndexError
| ValueError
| KeyError
| AttributeError.

Inductive result (A : Type) : Type :=
| Returned (a : A)
| Raised (e : exn).
Arguments Returned {A} a.
Arguments Raised {A} e.

Definition bind {A B : Type} (r : result A) (k : A -> result B) : result B :=
  match r with
  | Returned a => k a
  | Raised e => Raised e
  end.

Notation "'do' x <- c1 ; c2" := (bind c1 (fun x => c2))
  (at level 10, x name, c1 at level 100, c2 at level 200).

Fixpoint mapM {A B : Type} (f : A -> result B) (l : list A) : result (list B) :=
  match l with
  | [] => Returned []
  | a :: l' => do b <- f a; do bs <- mapM f l'; Returned (b :: bs)
  end.

Definition code (c : ascii) : nat := nat_of_ascii c.

Definition in_range (lo hi c : ascii) : bool :=
  (code lo <=? code c)%nat && (code c <=? code hi)%nat.

(** [str.isspace] on the ASCII range: TAB..CR, FS..US and the space. *)
Definition isspace (c : ascii) : bool :=
  ((9 <=? code c)%nat && (code c <=? 13)%nat)
  || ((28 <=? code c)%nat && (code c <=? 32)%nat).

Definition isdigit (c : ascii) : bool := in_range "0" "9" c.

Fixpoint lstrip (s : string) : string :=
  match s with
  | "" => ""
  | String c s' => if isspace c then lstrip s' else s
  end.

(** [rstrip] keeps a character when it is not a space or when something
    is left after it. *)
Fixpoint rstrip (s : string) : string :=
  match s with
  | "" => ""
  | String c s' =>
      match rstrip s' with
      | "" => if isspace c then "" else String c ""
      | r => String c r
      end
  end.

Definition strip (s : string) : string := rstrip (lstrip s).

Definition lower_char (c : ascii) : ascii :=
  if in_range "A" "Z" c then ascii_of_nat (code c + 32) else c.

Fixpoint lower (s : string) : string :=
  match s with
  | "" => ""
  | String c s' => String (lower_char c) (lower s')
  end.

(** Every character of [s] satisfies [p]. *)
Fixpoint all_chars (p : ascii -> bool) (s : string) : bool :=
  match s with
  | "" => true
  | String c s' => p c && all_chars p s'
  end.

Definition not_upper (c : ascii) : bool := negb (in_range "A" "Z" c).

(** [s[-1]] of a string; [None] for the empty string. *)
Fixpoint last_char (s : string) : option ascii :=
  match s with
  | "" => None
  | String c "" => Some c
  | String _ s' => last_char s'
  end.

(** [s.replace(old, new)] for a non-empty [old]: every non-overlapping
    occurrence, scanning from the left.  [skip] counts the characters of an
    occurrence that are still to be passed over. *)
Fixpoint replace_from (skip : nat) (old new s : string) : string :=
  match s with
  | "" => ""
  | String c s' =>
      match skip with
      | S k => replace_from k old new s'
      | O =>
          if String.prefix old s
          then new +:+ replace_from (String.length old - 1) old new s'
          else String c (replace_from 0 old new s')
      end
  end.

(** For the empty [old] Python puts [new] before every character and at
    the end. *)
Fixpoint intersperse (new s : string) : string :=
  match s with
  | "" => new
  | String c s' => new +:+ String c (intersperse new s')
  end.

Definition replace (old new s : string) : string :=
  match old with
  | "" => intersperse new s
  | _ => replace_from 0 old new s
  end.

(** [s.split(sep)] for a one-character separator: always at least one
    field. *)
Fixpoint split (sep : ascii) (s : string) : list string :=
  match s with
  | "" => [""]
  | String c s' =>
      if Ascii.eqb c sep then "" :: split sep s'
      else match split sep s' with
           | [] => [String c ""]
           | f :: fs => String c f :: fs
           end
  end.

End Py.
Import Py.

(** ** [models/train_classifier.py]: tokenizer *)
Module Tokenizer.

(** The NLTK functions used by the script. [pos_tagger] gives the tags
    alone; [nltk.pos_tag] pairs each token with its tag. *)
Record nltk : Type := {
  sent_tokenize : string -> list string;
  word_tokenize : string -> list string;
  lemmatize : string -> string;
  pos_tagger : list string -> list string;
  pos_tagger_length : forall ts, List.length (pos_tagger ts) = List.length ts
}.

Definition pos_tag (N : nltk) (tokens : list string) : list (string * string) :=
  combine tokens (pos_tagger N tokens).

Definition mem_char (c : ascii) (s : string) : bool :=
  existsb (Ascii.eqb c) (list_ascii_of_string s).

(** One character of the repeated group of [url_re], alternative by
    alternative: [[a-zA-Z]], [[0-9]], [[$-_@.&+]] (the range from [$] to [_]
    and the three characters after it), [[!*\(\),]]. *)
Definition url_char (c : ascii) : bool :=
  (in_range "a" "z" c || in_range "A" "Z" c)
  || in_range "0" "9" c
  || (in_range "$" "_" c || mem_char c "@.&+")
  || mem_char c "!*(),".

(** Length of the longest run of [url_char] at the start of [s]. The fifth
    alternative, [%] and two hexadecimal digits, adds nothing: [%] and the
    hexadecimal digits are matched one at a time by the alternatives before
    it, which the greedy loop tries first, and nothing follows the group. *)
Fixpoint url_run (s : string) : nat :=
  match s with
  | String c s' => if url_char c then S (url_run s') else 0
  | "" => 0
  end.

Fixpoint drop_chars (n : nat) (s : string) : string :=
  match n, s with
  | S k, String _ s' => drop_chars k s'
  | _, _ => s
  end.

(** [re.match(url_re, s)]: the length of the match at the start of [s]. *)
Definition match_url_at (s : string) : option nat :=
  if String.prefix "http" s then
    let after_http := drop_chars 4 s in
    let scheme :=
      if String.prefix "s://" after_http then Some 8
      else if String.prefix "://" after_http then Some 7
      else None in
    match scheme with
    | Some k =>
        match url_run (drop_chars k s) with
        | O => None
        | n => Some (k + n)
        end
    | None => None
    end
  else None.

(** [re.findall(url_re, text)]: the non-overlapping matches from the left. *)
Fixpoint findall_from (skip : nat) (s : string) : list string :=
  match s with
  | "" => []
  | String c s' =>
      match skip with
      | S k => findall_from k s'
      | O =>
          match match_url_at s with
          | Some n => substring 0 n s :: findall_from (n - 1) s'
          | None => findall_from 0 s'
          end
      end
  end.

Definition findall_urls (text : string) : list string := findall_from 0 text.

Definition url_placeholder_default : string := "urlplaceholder".

(** The loop [for detect_url in detect_urls: text = text.replace(...)]. *)
Definition replace_urls (text url_placeholder : string) : string :=
  fold_left (fun t detect_url => Py.replace detect_url url_placeholder t)
            (findall_urls text) text.

(** The replacement as the specification words it: every match of
    [url_re] is replaced where it stands ([re.sub(url_re, placeholder,
    text)]). Used only to compare [replace_urls] with. *)
Fixpoint sub_urls_from (skip : nat) (url_placeholder s : string) : string :=
  match s with
  | "" => ""
  | String c s' =>
      match skip with
      | S k => sub_urls_from k url_placeholder s'
      | O =>
          match match_url_at s with
          | Some n => url_placeholder +:+ sub_urls_from (n - 1) url_placeholder s'
          | None => String c (sub_urls_from 0 url_placeholder s')
          end
      end
  end.

Definition spec_sub_urls (text url_placeholder : string) : string :=
  sub_urls_from 0 url_placeholder text.

Definition clean_token (N : nltk) (w : string) : string :=
  strip (lower (lemmatize N w)).

Definition tokenize (N : nltk) (text url_placeholder : string) : list string :=
  let text := replace_urls text url_placeholder in
  let tokens := word_tokenize N text in
  List.map (clean_token N) tokens.

End Tokenizer.

Import Tokenizer.

(** ** [models/train_classifier.py]: the starting-verb feature *)
Module StartingVerbExtractor.

Definition is_verb_tag (first_tag : string) : bool :=
  String.eqb first_tag "VB" || String.eqb first_tag "VBP".

(** The body of the [for sentence in sentence_list] loop, then the
    [return False] after it. [pos_tags[0]] raises [IndexError] on the empty
    list. *)
Fixpoint starting_verb_loop (N : nltk) (sentence_list : list string)
  : result bool :=
  match sentence_list with
  | [] => Returned false
  | sentence :: rest =>
      let pos_tags := pos_tag N (tokenize N sentence url_placeholder_default) in
      match pos_tags with
      | [] => Raised IndexError
      | (first_word, first_tag) :: _ =>
          if is_verb_tag first_tag || String.eqb first_word "RT"
          then Returned true
          else starting_verb_loop N rest
      end
  end.

Definition starting_verb (N : nltk) (text : string) : result bool :=
  let sentence_list := sent_tokenize N text in
  starting_verb_loop N sentence_list.

(** The test of the loop body on one sentence, [false] when the sentence
    has no token. *)
Definition first_token_check (N : nltk) (sentence : string) : bool :=
  match pos_tag N (tokenize N sentence url_placeholder_default) with
  | [] => false
  | (first_word, first_tag) :: _ =>
      is_verb_tag first_tag || String.eqb first_word "RT"
  end.

(** The feature as the specification words it: decided by the first
    sentence alone. Used only to compare [starting_verb] with. *)
Definition spec_first_sentence_only (N : nltk) (text : string) : bool :=
  match sent_tokenize N text with
  | [] => false
  | sentence :: _ => first_token_check N sentence
  end.


End StartingVerbExtractor.

(** ** [models/train_classifier.py]: the multi-label score *)
Module Evaluator.

Local Open Scope Q_scope.

(** A two-dimensional label array: [shape1] is [shape[1]], [rows] the
    data row by row. *)
Record ndarray : Type := {
  shape1 : nat;
  rows : list (list bool)
}.



(** [a[:, column]]. *)
Definition column_values (a : ndarray) (column : nat) : list bool :=
  List.map (fun r => nth column r false) (rows a).

Definition column_of (a : ndarray) (column : nat) : result (list bool) :=
  if (column <? shape1 a)%nat
  then Returned (column_values a column)
  else Raised IndexError.

Definition count_where {A : Type} (p : A -> bool) (l : list A) : Q :=
  inject_Z (Z.of_nat (List.length (List.filter p l))).

(** Division with scikit-learn's [zero_division] rule: 0 where the
    denominator is 0. *)
Definition prf_divide (numerator denominator : Q) : Q :=
  if Qeq_bool denominator 0 then 0 else numerator / denominator.

(** Per-class precision, recall, F-beta and support of the class [cls]. *)
Definition class_fscore (cls : bool) (y_true y_pred : list bool) (beta : Q) : Q :=
  let tp_sum := count_where (fun tp => Bool.eqb (fst tp) cls && Bool.eqb (snd tp) cls)
                            (combine y_true y_pred) in
  let pred_sum := count_where (Bool.eqb cls) y_pred in
  let true_sum := count_where (Bool.eqb cls) y_true in
  let beta2 := beta * beta in
  let precision := prf_divide tp_sum pred_sum in
  let recall := prf_divide tp_sum true_sum in
  let denom := beta2 * precision + recall in
  let denom := if Qeq_bool denom 0 then 1 else denom in
  (1 + beta2) * precision * recall / denom.

Definition class_support (cls : bool) (y_true : list bool) : Q :=
  count_where (Bool.eqb cls) y_true.

Definition Qsum (l : list Q) : Q := fold_right Qplus 0 l.

Definition classes : list bool := [false; true].

(** The average of the per-class scores with the class supports as
    weights, 0 when all supports are 0.  A class absent from both vectors
    has support 0 and score 0, so summing over both classes equals summing
    over the classes present. *)
Definition weighted_fscore (y_true y_pred : list bool) (beta : Q) : Q :=
  let weights := List.map (fun c => class_support c y_true) classes in
  if Qeq_bool (Qsum weights) 0 then 0
  else Qsum (List.map (fun c => class_fscore c y_true y_pred beta
                                * class_support c y_true) classes)
       / Qsum weights.

(** [sklearn.metrics.fbeta_score(y_true, y_pred, beta, average='weighted')]
    on two label vectors; [ValueError] when the vectors differ in length.
    The library's validation of [beta] is not part of the model. *)
Definition fbeta_score (y_true y_pred : list bool) (beta : Q) : result Q :=
  if negb (List.length y_true =? List.length y_pred)%nat then Raised ValueError
  else Returned (weighted_fscore y_true y_pred beta).

(** What [scipy.stats.gmean] returns: [exp(mean(log(a)))], that is the
    [n]-th root of the product of the [n] scores, and [nan] for the empty
    array (the mean of an empty slice). The root is kept symbolically. *)
Inductive float_value : Type :=
| nan
| nth_root (n : nat) (radicand : Q).

Definition Qprod (l : list Q) : Q := fold_right Qmult 1 l.

Definition gmean (a : list Q) : float_value :=
  match a with
  | [] => nan
  | _ => nth_root (List.length a) (Qprod a)
  end.

Definition Qlt_bool (x y : Q) : bool := negb (Qle_bool y x).

(** The [for column in range(0, y_actual.shape[1])] loop. *)
Definition column_scores (y_actual y_estimators : ndarray) (beta : Q)
  : result (list Q) :=
  mapM (fun column =>
          do t <- column_of y_actual column;
          do p <- column_of y_estimators column;
          fbeta_score t p beta)
       (seq 0 (shape1 y_actual)).

(** The score of every column, as values. *)
Definition per_column_scores (y_actual y_estimators : ndarray) (beta : Q) : list Q :=
  List.map (fun column => weighted_fscore (column_values y_actual column)
                                          (column_values y_estimators column) beta)
           (seq 0 (shape1 y_actual)).

(** The arguments are arrays already: the two [isinstance(_, pd.DataFrame)]
    branches only take [.values] of a frame. *)
Definition multioutput_fscore (y_actual y_estimators : ndarray) (beta : Q)
  : result float_value :=
  do f1score_list <- column_scores y_actual y_estimators beta;
  let f1score := List.filter (fun s => Qlt_bool s 1) f1score_list in
  Returned (gmean f1score).

End Evaluator.

(** ** [data/process_data.py] *)
Module ProcessData.

Local Open Scope Z_scope.

(** A cell of a dataframe: text, an integer, or a missing value. *)
Inductive cell : Type :=
| Str (s : string)
| Int (z : Z)
| Missing.

Definition cell_eqb (a b : cell) : bool :=
  match a, b with
  | Str s, Str t => String.eqb s t
  | Int x, Int y => Z.eqb x y
  | Missing, Missing => true
  | _, _ => false
  end.

Definition row_eqb (r1 r2 : list cell) : bool :=
  (List.length r1 =? List.length r2)%nat
  && forallb (fun p => cell_eqb (fst p) (snd p)) (combine r1 r2).

(** A dataframe with the default index: column labels and the rows in
    index order. *)
Record frame : Type := {
  columns : list string;
  rows : list (list cell)
}.

Definition well_formed (df : frame) : Prop :=
  Forall (fun r => List.length r = List.length (columns df)) (rows df).

Definition count_label (name : string) (labels : list string) : nat :=
  List.length (List.filter (String.eqb name) labels).

(** The cells of a row under the label [name]. *)
Definition cells_at (name : string) (labels : list string) (r : list cell)
  : list cell :=
  List.map snd (List.filter (fun p => String.eqb (fst p) name) (combine labels r)).

(** [df.drop(columns=name)] on one row and on the labels. *)
Definition drop_cells (name : string) (labels : list string) (r : list cell)
  : list cell :=
  List.map snd
    (List.filter (fun p => negb (String.eqb (fst p) name)) (combine labels r)).

Definition drop_label (name : string) (labels : list string) : list string :=
  List.filter (fun l => negb (String.eqb l name)) labels.

Definition drop_column (name : string) (df : frame) : result frame :=
  if (count_label name (columns df) =? 0)%nat then Raised KeyError
  else Returned {| columns := drop_label name (columns df);
                   rows := List.map (drop_cells name (columns df)) (rows df) |}.

(** [df['categories'].str.split(';', expand=True)]: one list of fields per
    row, [None] for a cell that is not text, padded with [None] to the
    widest row. *)
Definition split_fields (c : cell) : list (option string) :=
  match c with
  | Str s => List.map Some (Py.split ";" s)
  | _ => []
  end.

Definition pad_to {A : Type} (n : nat) (l : list (option A)) : list (option A) :=
  (l ++ repeat None (n - List.length l))%list.

Definition width_of (fields : list (list (option string))) : nat :=
  fold_right Nat.max 0%nat (List.map (@List.length _) fields).

Definition expand (fields : list (list (option string)))
  : list (list (option string)) :=
  let width := width_of fields in
  List.map (pad_to width) fields.

(** [s.replace('-2', '').replace('-1', '').replace('-0', '')]; a [None]
    has no [replace]. *)
Definition colname (s : option string) : result string :=
  match s with
  | Some s => Returned (Py.replace "-0" "" (Py.replace "-1" "" (Py.replace "-2" "" s)))
  | None => Raised AttributeError
  end.

Definition digit_value (c : ascii) : Z := Z.of_nat (code c) - 48.

(** [.str.strip().str[-1]] followed by [.astype(int)] on one field: a
    missing field, an empty one and a last character that is no digit all
    end in [ValueError]. *)
Definition parse_category_value (field : option string) : result Z :=
  match field with
  | None => Raised ValueError
  | Some s =>
      match last_char (strip s) with
      | Some c => if isdigit c then Returned (digit_value c) else Raised ValueError
      | None => Raised ValueError
      end
  end.

(** The loop [for column in categories]: a label that occurs twice selects
    a frame, which has no [.str]; otherwise every field of the column is
    converted. *)
Definition convert_column (category_colnames : list string)
    (categories : list (list (option string))) (j : nat) : result (list Z) :=
  let column := nth j category_colnames "" in
  if (1 <? count_label column category_colnames)%nat then Raised AttributeError
  else mapM (fun r => parse_category_value (nth j r None)) categories.

(** [categories.replace(to_replace=2, value=1)]. *)
Definition replace_2_by_1 (z : Z) : Z := if z =? 2 then 1 else z.

(** Row [i] of a table given column by column. *)
Definition row_of_columns (cols : list (list Z)) (i : nat) : list cell :=
  List.map (fun col => Int (nth i col 0)) cols.

(** [df.drop_duplicates()]: the first of equal rows is kept. *)
Fixpoint drop_duplicates_rows (seen : list (list cell)) (l : list (list cell))
  : list (list cell) :=
  match l with
  | [] => []
  | r :: l' =>
      if existsb (row_eqb r) seen then drop_duplicates_rows seen l'
      else r :: drop_duplicates_rows (r :: seen) l'
  end.

Definition drop_duplicates (df : frame) : frame :=
  {| columns := columns df; rows := drop_duplicates_rows [] (rows df) |}.

(** [categories = df['categories'].str.split(';', expand=True)]. *)
Definition categories_of (df : frame) : list (list (option string)) :=
  expand (List.map (fun r => match cells_at "categories" (columns df) r with
                             | c :: _ => split_fields c
                             | [] => []
                             end) (rows df)).

(** The whole conversion loop, column by column. *)
Definition convert_all (category_colnames : list string)
    (categories : list (list (option string))) : result (list (list Z)) :=
  mapM (convert_column category_colnames categories)
       (seq 0 (List.length category_colnames)).

(** [pd.concat([df, categories], axis=1, join='inner')] on frames that
    share the default index. *)
Definition concat_columns (df : frame) (category_colnames : list string)
    (categories : list (list Z)) : frame :=
  {| columns := (columns df ++ category_colnames)%list;
     rows := List.map (fun ir => (snd ir ++ row_of_columns categories (fst ir))%list)
                      (combine (seq 0 (List.length (rows df))) (rows df)) |}.

(** Steps 3 to 5 of [clean_data]: the frame right after
    [df.drop_duplicates()], before [child_alone] is dropped. *)
Definition clean_data_dedup (df : frame) : result frame :=
  (* df['categories'] *)
  do _ <- match count_label "categories" (columns df) with
          | O => Raised KeyError
          | 1%nat => Returned tt
          | _ => Raised AttributeError
          end;
  let categories := categories_of df in
  (* row.values.tolist()[0] *)
  do row <- match categories with
            | [] => Raised IndexError
            | row :: _ => Returned row
            end;
  do category_colnames <- mapM colname row;
  do converted <- convert_all category_colnames categories;
  let categories := List.map (List.map replace_2_by_1) converted in
  do df <- drop_column "categories" df;
  let df1 := concat_columns df category_colnames categories in
  Returned (drop_duplicates df1).

Definition clean_data (df : frame) : result frame :=
  do df <- clean_data_dedup df;
  drop_column "child_alone" df.

(** Whether a field converts, and the integer it converts to. *)
Definition field_ok (field : option string) : bool :=
  match field with
  | Some s => match last_char (strip s) with
              | Some c => isdigit c
              | None => false
              end
  | None => false
  end.

Definition digit_of_field (field : option string) : Z :=
  match field with
  | Some s => match last_char (strip s) with
              | Some c => digit_value c
              | None => 0
              end
  | None => 0
  end.

(** The rows of the joined frame written row by row: the cells of the
    input row without the [categories] cell, then one integer per field. *)
(** Every column label occurs once among the labels. *)
Definition unique_labels (labels : list string) : Prop :=
  forall j, (j < List.length labels)%nat ->
            (1 <? count_label (nth j labels "") labels)%nat = false.

Definition all_fields_ok (categories : list (list (option string))) : Prop :=
  Forall (Forall (fun f => field_ok f = true)) categories.

Definition joined_rows (df : frame) : list (list cell) :=
  List.map (fun rf => (drop_cells "categories" (columns df) (fst rf)
                       ++ List.map (fun f => Int (replace_2_by_1 (digit_of_field f)))
                                   (snd rf))%list)
           (combine (rows df) (categories_of df)).

End ProcessData.

(** ** The SQLite store shared by the two scripts *)
Module Store.
Import ProcessData.

(** The databases by engine URL, each a map from table name to table. *)
Definition create_engine (url : string) : string := url.

(** [df.to_sql(name, engine, index=False, if_exists='replace')]. *)
Definition to_sql (df : frame) (name engine : string)
    (db : gmap string (gmap string frame)) : gmap string (gmap string frame) :=
  <[engine := <[name := df]> (default ∅ (db !! engine))]> db.

(** [pd.read_sql_table(name, engine)]; a missing table is a [ValueError]. *)
Definition read_sql_table (name engine : string)
    (db : gmap string (gmap string frame)) : result frame :=
  match db !! engine with
  | Some tables =>
      match tables !! name with
      | Some df => Returned df
      | None => Raised ValueError
      end
  | None => Raised ValueError
  end.

(** [process_data.save_data]: [table_name] is computed and not used. *)
Definition save_data (df : frame) (database_filename : string)
    (db : gmap string (gmap string frame)) : gmap string (gmap string frame) :=
  let engine := create_engine ("sqlite:///" +:+ database_filename) in
  let table_name := Py.replace ".db" "" database_filename +:+ "_table" in
  to_sql df "DisasterResponse_table" engine db.

(** The table name [save_data] computes from the file name. *)
Definition save_data_table_name (database_filename : string) : string :=
  Py.replace ".db" "" database_filename +:+ "_table".

(** ['sqlite:///{}'.format(database_filepath)]. *)
Definition format_sqlite_url (database_filepath : string) : string :=
  "sqlite:///" +:+ database_filepath.

(** [train_classifier.load_data_from_db]: the table, then [X], [y] and
    [category_names]. *)
Definition load_table (database_filepath : string)
    (db : gmap string (gmap string frame)) : result frame :=
  let engine := create_engine (format_sqlite_url database_filepath) in
  read_sql_table "DisasterResponse_table" engine db.

Definition load_data_from_db (database_filepath : string)
    (db : gmap string (gmap string frame))
  : result (list cell * frame * list string) :=
  do df <- load_table database_filepath db;
  do X <- match count_label "message" (columns df) with
          | O => Raised KeyError
          | _ => Returned (List.concat (List.map (cells_at "message" (columns df)) (rows df)))
          end;
  let y := {| columns := skipn 4 (columns df);
              rows := List.map (skipn 4) (rows df) |} in
  let category_names := columns y in
  Returned (X, y, category_names).

End Store.

(** ** [data/process_data.py]: [load_data] and [main] *)
Module Etl.
Import ProcessData Store.

(** What a run can end with besides the exceptions of [Py]: a CSV file that
    does not exist. *)
Inductive io_exn : Type :=
| FileNotFoundError
| PyError (e : exn).

Inductive run (A : Type) : Type :=
| Done (a : A)
| Failed (e : io_exn).
Arguments Done {A} a.
Arguments Failed {A} e.

Definition lift {A : Type} (r : result A) : run A :=
  match r with
  | Returned a => Done a
  | Raised e => Failed (PyError e)
  end.

(** [pd.read_csv(path)]: the CSV files are a finite map from path to the
    table the file holds. *)
Definition read_csv (files : gmap string frame) (path : string) : run frame :=
  match files !! path with
  | Some df => Done df
  | None => Failed FileNotFoundError
  end.

Definition key_of (key : string) (labels : list string) (r : list cell) : cell :=
  hd Missing (cells_at key labels r).

Definition with_suffix (sfx : string) (overlap : list string) (l : string) : string :=
  if existsb (String.eqb l) overlap then l +:+ sfx else l.

(** The rows a row [l] of the left frame gives: one per row of [right] with
    an equal key, in the order of [right], or one with missing values. *)
Definition merged_rows_of (key : string) (left right : frame) (l : list cell)
  : list (list cell) :=
  match List.filter (fun r => cell_eqb (key_of key (columns right) r)
                                      (key_of key (columns left) l))
                    (rows right) with
  | [] => [(l ++ repeat Missing (List.length (drop_label key (columns right))))%list]
  | ms => List.map (fun r => (l ++ drop_cells key (columns right) r)%list) ms
  end.

(** [pd.merge(left, right, how='left', on=key)]: the key must be a label of
    both frames ([KeyError]) and occur once in each ([ValueError]).  The
    rows of [left] are taken in order, each with its matches.  Labels other
    than the key that the frames share get the suffixes [_x] and [_y]. *)
Definition merge_left (key : string) (left right : frame) : result frame :=
  if ((count_label key (columns left) =? 0)
      || (count_label key (columns right) =? 0))%nat then Raised KeyError
  else if ((1 <? count_label key (columns left))
           || (1 <? count_label key (columns right)))%nat then Raised ValueError
  else
    let right_labels := drop_label key (columns right) in
    let overlap :=
      List.filter (fun l => negb (String.eqb l key)
                            && existsb (String.eqb l) right_labels)
                  (columns left) in
    Returned
      {| columns := (List.map (with_suffix "_x" overlap) (columns left)
                     ++ List.map (with_suffix "_y" overlap) right_labels)%list;
         rows := flat_map (merged_rows_of key left right) (rows left) |}.

Definition load_data (files : gmap string frame)
    (messages_filepath categories_filepath : string) : run frame :=
  match read_csv files messages_filepath with
  | Failed e => Failed e
  | Done messages =>
      match read_csv files categories_filepath with
      | Failed e => Failed e
      | Done categories => lift (merge_left "id" messages categories)
      end
  end.

(** The calls of [print], in order. *)
Inductive line : Type :=
| LoadingData (messages categories : string)
| CleaningData
| SavingData (database : string)
| CleanedDataSaved
| Usage.

Record world : Type := {
  files : gmap string frame;
  databases : gmap string (gmap string frame);
  stdout : list line
}.

Definition print (l : line) (w : world) : world :=
  {| files := files w; databases := databases w;
     stdout := (stdout w ++ [l])%list |}.

(** [main]: [argv] is [sys.argv], the script name first. *)
Definition main (argv : list string) (w : world) : world * run unit :=
  match argv with
  | [_; messages_filepath; categories_filepath; database_filepath] =>
      let w := print (LoadingData messages_filepath categories_filepath) w in
      match load_data (files w) messages_filepath categories_filepath with
      | Failed e => (w, Failed e)
      | Done df =>
          let w := print CleaningData w in
          match clean_data df with
          | Raised e => (w, Failed (PyError e))
          | Returned df =>
              let w := print (SavingData database_filepath) w in
              let w := {| files := files w;
                          databases := save_data df database_filepath (databases w);
                          stdout := stdout w |} in
              (print CleanedDataSaved w, Done tt)
          end
      end
  | _ => (print Usage w, Done tt)
  end.

End Etl.

(** ** [models/train_classifier.py]: [evaluate_pipeline] *)
Module Report.
Import Evaluator.

Local Open Scope Q_scope.

(** [y_pred == y_test]: entry by entry, [ValueError] when the shapes differ. *)
Definition elementwise_eq (a b : ndarray) : result ndarray :=
  if ((shape1 a =? shape1 b)
      && (List.length (Evaluator.rows a) =? List.length (Evaluator.rows b)))%nat
  then Returned
         {| shape1 := shape1 a;
            Evaluator.rows :=
              List.map (fun ab =>
                          List.map (fun c => Bool.eqb (nth c (fst ab) false)
                                                      (nth c (snd ab) false))
                                   (seq 0 (shape1 a)))
                       (combine (Evaluator.rows a) (Evaluator.rows b)) |}
  else Raised ValueError.

(** The mean of a column of booleans; [None] is NaN, the mean of nothing. *)
Definition bool_mean (l : list bool) : option Q :=
  match l with
  | [] => None
  | _ => Some (count_where (fun b => b) l / inject_Z (Z.of_nat (List.length l)))
  end.

Fixpoint present (l : list (option Q)) : list Q :=
  match l with
  | [] => []
  | Some q :: l' => q :: present l'
  | None :: l' => present l'
  end.

(** [Series.mean()]: NaN entries are skipped. *)
Definition series_mean (l : list (option Q)) : option Q :=
  match present l with
  | [] => None
  | qs => Some (Qsum qs / inject_Z (Z.of_nat (List.length qs)))
  end.

(** [(y_pred == y_test).mean().mean()]. *)
Definition overall_accuracy (y_pred y_test : ndarray) : result (option Q) :=
  do eq <- elementwise_eq y_pred y_test;
  let column_means :=
    List.map (fun c => bool_mean (column_values eq c)) (seq 0 (shape1 eq)) in
  Returned (series_mean column_means).

(** [evaluate_pipeline] from the predictions on: the two numbers it prints
    (the per-category reports of scikit-learn are left out). *)
Definition evaluate_pipeline (y_pred y_test : ndarray)
  : result (float_value * option Q) :=
  do multi_f1 <- multioutput_fscore y_test y_pred 1;
  do overall_accuracy <- overall_accuracy y_pred y_test;
  Returned (multi_f1, overall_accuracy).

End Report.

(** ** Predicates on strings used in the statements *)
Module Predicates.

(** The string is empty or starts with a character that is no white
    space. *)
Definition first_not_space (s : string) : Prop :=
  match s with
  | "" => True
  | String c _ => isspace c = false
  end.

Definition no_colon (c : ascii) : bool := negb (Ascii.eqb c ":").

End Predicates.

(** ** A small stand-in for NLTK, to evaluate the functions on examples *)
Module Sample.

(** Sentences end at a full stop, which stays with its sentence; blank
    sentences are dropped. *)
Fixpoint sentences_rev_acc (s : string) : list string :=
  match s with
  | "" => [""]
  | String c s' =>
      let r := sentences_rev_acc s' in
      if Ascii.eqb c "." then String c "" :: r
      else match r with
           | [] => [String c ""]
           | h :: t => String c h :: t
           end
  end.

Definition nonempty (s : string) : bool := negb (String.eqb s "").

Definition sample_sent_tokenize (text : string) : list string :=
  List.filter nonempty (List.map strip (sentences_rev_acc text)).

Definition isalnum (c : ascii) : bool :=
  in_range "a" "z" c || in_range "A" "Z" c || in_range "0" "9" c.

(** Words are the maximal runs of letters and digits. *)
Fixpoint alnum_runs (s : string) : list string :=
  match s with
  | "" => [""]
  | String c s' =>
      let r := alnum_runs s' in
      if isalnum c then
        match r with
        | [] => [String c ""]
        | h :: t => String c h :: t
        end
      else "" :: r
  end.

Definition sample_word_tokenize (text : string) : list string :=
  List.filter nonempty (alnum_runs text).

Definition sample_tag (w : string) : string :=
  if existsb (String.eqb w) ["send"; "bring"; "help"; "give"] then "VB" else "NN".

Definition sample_nltk : nltk :=
  {| sent_tokenize := sample_sent_tokenize;
     word_tokenize := sample_word_tokenize;
     lemmatize := fun w => w;
     pos_tagger := List.map sample_tag;
     pos_tagger_length := fun ts => length_map sample_tag ts |}.

(** Two messages; the first was joined to two category records that
    differ in [child_alone] only. *)
Definition sample_messages : ProcessData.frame :=
  {| ProcessData.columns := ["id"; "message"; "original"; "genre"; "categories"];
     ProcessData.rows :=
       [[ProcessData.Int 1; ProcessData.Str "Need water"; ProcessData.Missing;
         ProcessData.Str "direct";
         ProcessData.Str "related-1;child_alone-0;aid_related-1"];
        [ProcessData.Int 1; ProcessData.Str "Need water"; ProcessData.Missing;
         ProcessData.Str "direct";
         ProcessData.Str "related-1;child_alone-1;aid_related-1"];
        [ProcessData.Int 2; ProcessData.Str "Storm coming"; ProcessData.Missing;
         ProcessData.Str "news";
         ProcessData.Str "related-0;child_alone-0;aid_related-0"]] |}.

(** Category values 2, 3 and 10. *)
Definition sample_out_of_range : ProcessData.frame :=
  {| ProcessData.columns := ["id"; "message"; "categories"];
     ProcessData.rows :=
       [[ProcessData.Int 1; ProcessData.Str "Need water";
         ProcessData.Str "related-2;child_alone-0;aid_related-1"];
        [ProcessData.Int 2; ProcessData.Str "Storm coming";
         ProcessData.Str "related-3;child_alone-0;aid_related-10"]] |}.


(** Two label arrays with four rows and three columns; the first column
    is predicted exactly. *)
Definition sample_actual : Evaluator.ndarray :=
  {| Evaluator.shape1 := 3;
     Evaluator.rows := [[true; false; true]; [false; false; true];
                        [true; true; false]; [false; true; false]] |}.

Definition sample_estimated : Evaluator.ndarray :=
  {| Evaluator.shape1 := 3;
     Evaluator.rows := [[true; false; true]; [false; true; true];
                        [true; true; true]; [false; true; false]] |}.

End Sample.

(** ** Further sample data *)
Module Examples.
Import Evaluator.

(** A label column that is predicted wrongly in every row. *)
Definition wrong_actual : ndarray :=
  {| shape1 := 1; Evaluator.rows := [[true]; [true]] |}.
Definition wrong_estimated : ndarray :=
  {| shape1 := 1; Evaluator.rows := [[false]; [false]] |}.

(** The first two columns of [sample_actual]. *)
Definition narrow_actual : ndarray :=
  {| shape1 := 2; Evaluator.rows := Evaluator.rows Sample.sample_actual |}.

(** [sample_estimated] without its last row. *)
Definition short_estimated : ndarray :=
  {| shape1 := 3;
     Evaluator.rows := [[true; false; true]; [false; true; true];
                        [true; true; true]] |}.

(** Category strings with an uneven number of fields. *)
Definition long_second_row : ProcessData.frame :=
  {| ProcessData.columns := ["id"; "categories"];
     ProcessData.rows :=
       [[ProcessData.Int 1; ProcessData.Str "related-1;child_alone-0"];
        [ProcessData.Int 2; ProcessData.Str "related-1;child_alone-0;offer-0"]] |}.

Definition short_second_row : ProcessData.frame :=
  {| ProcessData.columns := ["id"; "categories"];
     ProcessData.rows :=
       [[ProcessData.Int 1; ProcessData.Str "related-1;child_alone-0"];
        [ProcessData.Int 2; ProcessData.Str "related-1"]] |}.




(** The two CSV tables of a run: three messages, and category records
    for the first two of them, the second one twice. *)
Definition messages_csv : ProcessData.frame :=
  {| ProcessData.columns := ["id"; "message"; "original"; "genre"];
     ProcessData.rows :=
       [[ProcessData.Int 1; ProcessData.Str "Need water"; ProcessData.Missing;
         ProcessData.Str "direct"];
        [ProcessData.Int 2; ProcessData.Str "Storm coming"; ProcessData.Missing;
         ProcessData.Str "news"]] |}.

Definition categories_csv : ProcessData.frame :=
  {| ProcessData.columns := ["id"; "categories"];
     ProcessData.rows :=
       [[ProcessData.Int 2; ProcessData.Str "related-1;child_alone-0;offer-0"];
        [ProcessData.Int 1; ProcessData.Str "related-1;child_alone-0;offer-2"];
        [ProcessData.Int 2; ProcessData.Str "related-1;child_alone-0;offer-0"]] |}.

Definition sample_world : Etl.world :=
  {| Etl.files := <["messages.csv" := messages_csv]>
                    (<["categories.csv" := categories_csv]> ∅);
     Etl.databases := ∅;
     Etl.stdout := [] |}.

(** A message table with a message that has no category record. *)
Definition unmatched_messages_csv : ProcessData.frame :=
  {| ProcessData.columns := ["id"; "message"; "original"; "genre"];
     ProcessData.rows :=
       [[ProcessData.Int 1; ProcessData.Str "Need water"; ProcessData.Missing;
         ProcessData.Str "direct"];
        [ProcessData.Int 7; ProcessData.Str "Road blocked"; ProcessData.Missing;
         ProcessData.Str "direct"]] |}.

End Examples.

(** * Properties *)

Import StartingVerbExtractor Sample Examples Predicates.

(** ** Tokenizer *)
Section TokenizerFacts.
Variable N : nltk.

Lemma tokenize_unfold (text url_placeholder : string) :
  tokenize N text url_placeholder
  = List.map (clean_token N) (word_tokenize N (replace_urls text url_placeholder)).
Proof. reflexivity. Qed.

Lemma tokenize_length (text url_placeholder : string) :
  List.length (tokenize N text url_placeholder)
  = List.length (word_tokenize N (replace_urls text url_placeholder)).
Proof. rewrite tokenize_unfold. apply length_map. Qed.

Lemma replace_urls_empty (url_placeholder : string) :
  replace_urls "" url_placeholder = "".
Proof. reflexivity. Qed.

(** The empty string has no URL, so the word tokenizer sees the empty
    string; the result is empty when the word tokenizer returns no token
    for it. *)
Lemma tokenize_empty_string (url_placeholder : string) :
  word_tokenize N "" = [] -> tokenize N "" url_placeholder = [].
Proof. intros H. rewrite tokenize_unfold, replace_urls_empty, H. reflexivity. Qed.

Lemma pos_tag_nil_iff (tokens : list string) :
  pos_tag N tokens = [] <-> tokens = [].
Proof.
  unfold pos_tag. pose proof (pos_tagger_length N tokens) as Hlen.
  destruct tokens as [|t ts]; [split; reflexivity|].
  destruct (pos_tagger N (t :: ts)); simpl in *; [discriminate Hlen|].
  split; discriminate.
Qed.

End TokenizerFacts.

(** The example of the specification: the URL is replaced before the
    words are split. *)
Lemma replace_urls_example :
  findall_urls "Check http://example.com/path now" = ["http://example.com/path"]
  /\ replace_urls "Check http://example.com/path now" url_placeholder_default
     = "Check urlplaceholder now".
Proof. split; vm_compute; reflexivity. Qed.

Lemma tokenize_example (N : nltk) :
  tokenize N "Check http://example.com/path now" url_placeholder_default
  = List.map (clean_token N) (word_tokenize N "Check urlplaceholder now").
Proof. rewrite tokenize_unfold. destruct replace_urls_example as [_ ->]. reflexivity. Qed.

Lemma tokenize_example_sample :
  tokenize sample_nltk "Check http://example.com/path now" url_placeholder_default
  = ["check"; "urlplaceholder"; "now"].
Proof. vm_compute. reflexivity. Qed.

(** C7 (defect at a concrete input).  When one detected URL is a proper
    prefix of a later one, [text.replace] of the shorter one rewrites the
    start of the longer one too: the second replacement then finds nothing
    and the tail of the longer URL stays in the text, attached to the
    placeholder.  Replacing every match where it stands would give
    ["see urlplaceholder and urlplaceholder"]. *)
Theorem replace_urls_prefix_url_leaves_fragment :
  findall_urls "see http://t.co/a and http://t.co/ab"
    = ["http://t.co/a"; "http://t.co/ab"]
  /\ replace_urls "see http://t.co/a and http://t.co/ab" url_placeholder_default
     = "see urlplaceholder and urlplaceholderb"
  /\ spec_sub_urls "see http://t.co/a and http://t.co/ab" url_placeholder_default
     = "see urlplaceholder and urlplaceholder"
  /\ (forall N : nltk,
        tokenize N "see http://t.co/a and http://t.co/ab" url_placeholder_default
        = List.map (clean_token N)
            (word_tokenize N "see urlplaceholder and urlplaceholderb"))
  /\ tokenize sample_nltk "see http://t.co/a and http://t.co/ab"
       url_placeholder_default
     = ["see"; "urlplaceholder"; "and"; "urlplaceholderb"].
Proof.
  repeat split; try (vm_compute; reflexivity).
Qed.

(** ** StartingVerbExtractor *)
Section StartingVerbFacts.
Variable N : nltk.

Lemma starting_verb_loop_any (sentence_list : list string) :
  Forall (fun s => tokenize N s url_placeholder_default <> []) sentence_list ->
  starting_verb_loop N sentence_list
  = Returned (existsb (first_token_check N) sentence_list).
Proof.
  induction 1 as [|s rest Hs _ IH]; [reflexivity|].
  cbn [starting_verb_loop existsb]. unfold first_token_check.
  destruct (pos_tag N (tokenize N s url_placeholder_default)) as [|[w t] tags] eqn:E.
  - apply pos_tag_nil_iff in E. contradiction.
  - destruct (is_verb_tag t || String.eqb w "RT"); [reflexivity|exact IH].
Qed.

Lemma starting_verb_no_sentence (text : string) :
  sent_tokenize N text = [] -> starting_verb N text = Returned false.
Proof. intros H. unfold starting_verb. rewrite H. reflexivity. Qed.

End StartingVerbFacts.

(** The tokens are lower-cased, so the comparison of the first token with
    the upper-case string RT never succeeds. *)
Section RetweetMarker.

Lemma lower_char_not_upper (c : ascii) : not_upper (lower_char c) = true.
Proof. destruct c as [[] [] [] [] [] [] [] []]; reflexivity. Qed.

Lemma lower_not_upper (s : string) : all_chars not_upper (lower s) = true.
Proof.
  induction s as [|c s IH]; [reflexivity|].
  simpl. rewrite lower_char_not_upper, IH. reflexivity.
Qed.

Lemma lstrip_all_chars (p : ascii -> bool) (s : string) :
  all_chars p s = true -> all_chars p (lstrip s) = true.
Proof.
  induction s as [|c s IH]; [reflexivity|]. simpl. intros H.
  apply andb_prop in H. destruct H as [Hc Hs].
  destruct (isspace c); [apply IH, Hs|]. simpl. rewrite Hc, Hs. reflexivity.
Qed.

Lemma rstrip_all_chars (p : ascii -> bool) (s : string) :
  all_chars p s = true -> all_chars p (rstrip s) = true.
Proof.
  induction s as [|c s IH]; [reflexivity|]. simpl. intros H.
  apply andb_prop in H. destruct H as [Hc Hs]. specialize (IH Hs).
  destruct (rstrip s) as [|c' r].
  - destruct (isspace c); [reflexivity|]. simpl. rewrite Hc. reflexivity.
  - cbn [all_chars]. rewrite Hc. exact IH.
Qed.

Lemma clean_token_never_RT (N : nltk) (w : string) : clean_token N w <> "RT".
Proof.
  unfold clean_token, strip. intros H.
  pose proof (rstrip_all_chars not_upper _
                (lstrip_all_chars not_upper _ (lower_not_upper (lemmatize N w)))) as Hall.
  rewrite H in Hall. discriminate Hall.
Qed.

End RetweetMarker.

(** C3 (amended).  The loop visits every sentence: when each sentence of
    the message has at least one token, the feature is true exactly when
    the first token of SOME sentence is tagged VB or VBP or is the string
    RT. *)
Theorem starting_verb_any_sentence (N : nltk) (text : string) :
  Forall (fun s => tokenize N s url_placeholder_default <> [])
         (sent_tokenize N text) ->
  starting_verb N text
  = Returned (existsb (first_token_check N) (sent_tokenize N text)).
Proof. intros H. unfold starting_verb. apply starting_verb_loop_any, H. Qed.

Lemma starting_verb_any_sentence_witness :
  Forall (fun s => tokenize sample_nltk s url_placeholder_default <> [])
         (sent_tokenize sample_nltk "We are stranded. Send water")
  /\ starting_verb sample_nltk "We are stranded. Send water" = Returned true.
Proof.
  assert (H : Forall (fun s => tokenize sample_nltk s url_placeholder_default <> [])
                     (sent_tokenize sample_nltk "We are stranded. Send water")).
  { repeat constructor; vm_compute; discriminate. }
  split; [exact H|].
  exact (starting_verb_any_sentence sample_nltk "We are stranded. Send water" H).
Defined.

(** C3 (as stated, refuted).  The first sentence starts with a pronoun, the
    second with a verb: the first sentence alone says false, the code
    returns true. *)
Lemma starting_verb_not_first_sentence_only :
  sent_tokenize sample_nltk "We are stranded. Send water"
    = ["We are stranded."; "Send water"]
  /\ spec_first_sentence_only sample_nltk "We are stranded. Send water" = false
  /\ starting_verb sample_nltk "We are stranded. Send water" = Returned true
  /\ starting_verb sample_nltk "We are stranded. Send water"
     <> Returned (spec_first_sentence_only sample_nltk "We are stranded. Send water").
Proof. repeat split; try (vm_compute; reflexivity). vm_compute. discriminate. Qed.



(** The two degenerate inputs the code does handle. *)
Lemma degenerate_inputs_handled (N : nltk) :
  (word_tokenize N "" = [] -> tokenize N "" url_placeholder_default = [])
  /\ (forall text, sent_tokenize N text = [] ->
                   starting_verb N text = Returned false).
Proof.
  split; [apply tokenize_empty_string|apply starting_verb_no_sentence].
Qed.

(** ** The multi-label score *)
Import Evaluator.

Section EvaluatorFacts.
Local Open Scope Q_scope.

Lemma count_where_nonneg {A : Type} (p : A -> bool) (l : list A) :
  0 <= count_where p l.
Proof.
  unfold count_where. change 0 with (inject_Z 0). rewrite <- Zle_Qle. lia.
Qed.

Lemma filter_pair_le_snd (cls : bool) (y_true y_pred : list bool) :
  (List.length (List.filter (fun tp => Bool.eqb (fst tp) cls && Bool.eqb (snd tp) cls)
                            (combine y_true y_pred))
   <= List.length (List.filter (Bool.eqb cls) y_pred))%nat.
Proof.
  revert y_pred. induction y_true as [|t ts IH]; intros [|q qs]; simpl; try lia.
  specialize (IH qs).
  destruct t, q, cls; simpl; lia.
Qed.

Lemma filter_pair_le_fst (cls : bool) (y_true y_pred : list bool) :
  (List.length (List.filter (fun tp => Bool.eqb (fst tp) cls && Bool.eqb (snd tp) cls)
                            (combine y_true y_pred))
   <= List.length (List.filter (Bool.eqb cls) y_true))%nat.
Proof.
  revert y_pred. induction y_true as [|t ts IH]; intros [|q qs]; simpl; try lia.
  specialize (IH qs). destruct t, q, cls; simpl; lia.
Qed.

Lemma prf_divide_unit (n d : Q) :
  0 <= n -> n <= d -> 0 <= prf_divide n d /\ prf_divide n d <= 1.
Proof.
  intros Hn Hd. unfold prf_divide.
  destruct (Qeq_bool d 0) eqn:E; [split; lra|].
  apply Qeq_bool_neq in E.
  assert (Hpos : 0 < d) by lra.
  split.
  - apply Qle_shift_div_l; [exact Hpos|lra].
  - apply Qle_shift_div_r; [exact Hpos|lra].
Qed.

Lemma fscore_formula_unit (b2 p r : Q) :
  0 <= b2 -> 0 <= p -> p <= 1 -> 0 <= r -> r <= 1 ->
  let denom := b2 * p + r in
  let denom := if Qeq_bool denom 0 then 1 else denom in
  0 <= (1 + b2) * p * r / denom /\ (1 + b2) * p * r / denom <= 1.
Proof.
  intros Hb Hp Hp1 Hr Hr1. cbv zeta.
  assert (Hbp : 0 <= b2 * p) by (apply Qmult_le_0_compat; assumption).
  assert (Hpr : 0 <= p * r) by (apply Qmult_le_0_compat; assumption).
  assert (Hbpr : 0 <= b2 * (p * r)) by (apply Qmult_le_0_compat; assumption).
  assert (Hpr_r : p * r <= r) by nra.
  assert (Hpr_p : b2 * (p * r) <= b2 * p) by nra.
  destruct (Qeq_bool (b2 * p + r) 0) eqn:E.
  - apply Qeq_bool_iff in E.
    assert (Hr0 : r == 0) by lra.
    assert (Hz : (1 + b2) * p * r == 0) by (rewrite Hr0; ring).
    rewrite Hz. split; unfold Qdiv; rewrite Qmult_0_l; lra.
  - apply Qeq_bool_neq in E.
    assert (Hpos : 0 < b2 * p + r) by lra.
    split.
    + apply Qle_shift_div_l; [exact Hpos|]. nra.
    + apply Qle_shift_div_r; [exact Hpos|]. nra.
Qed.

Lemma class_fscore_unit (cls : bool) (y_true y_pred : list bool) (beta : Q) :
  0 <= class_fscore cls y_true y_pred beta
  /\ class_fscore cls y_true y_pred beta <= 1.
Proof.
  unfold class_fscore.
  set (tp := count_where _ (combine y_true y_pred)).
  assert (Htp : 0 <= tp) by apply count_where_nonneg.
  assert (Hp : tp <= count_where (Bool.eqb cls) y_pred).
  { unfold tp, count_where. rewrite <- Zle_Qle.
    apply Nat2Z.inj_le, filter_pair_le_snd. }
  assert (Ht : tp <= count_where (Bool.eqb cls) y_true).
  { unfold tp, count_where. rewrite <- Zle_Qle.
    apply Nat2Z.inj_le, filter_pair_le_fst. }
  destruct (prf_divide_unit _ _ Htp Hp) as [P0 P1].
  destruct (prf_divide_unit _ _ Htp Ht) as [R0 R1].
  apply fscore_formula_unit; try assumption.
  nra.
Qed.

(** Every weighted F-beta score lies between 0 and 1. *)
Lemma weighted_fscore_unit (y_true y_pred : list bool) (beta : Q) :
  0 <= weighted_fscore y_true y_pred beta
  /\ weighted_fscore y_true y_pred beta <= 1.
Proof.
  unfold weighted_fscore, classes. cbn [List.map Qsum fold_right].
  destruct (class_fscore_unit false y_true y_pred beta) as [F0 F1].
  destruct (class_fscore_unit true y_true y_pred beta) as [T0 T1].
  pose proof (count_where_nonneg (Bool.eqb false) y_true) as W0.
  pose proof (count_where_nonneg (Bool.eqb true) y_true) as W1.
  unfold class_support.
  set (f0 := class_fscore false y_true y_pred beta) in *.
  set (f1 := class_fscore true y_true y_pred beta) in *.
  set (w0 := count_where (Bool.eqb false) y_true) in *.
  set (w1 := count_where (Bool.eqb true) y_true) in *.
  destruct (Qeq_bool (w0 + (w1 + 0)) 0) eqn:E; [split; lra|].
  apply Qeq_bool_neq in E.
  assert (Hpos : 0 < w0 + (w1 + 0)) by lra.
  split.
  - apply Qle_shift_div_l; [exact Hpos|]. nra.
  - apply Qle_shift_div_r; [exact Hpos|]. nra.
Qed.


End EvaluatorFacts.

Section ScoreFacts.
Local Open Scope Q_scope.

Lemma mapM_returns {A B : Type} (f : A -> result B) (g : A -> B) (l : list A) :
  (forall a, In a l -> f a = Returned (g a)) ->
  mapM f l = Returned (List.map g l).
Proof.
  induction l as [|a l IH]; intros H; [reflexivity|].
  cbn [mapM List.map]. rewrite (H a (or_introl eq_refl)). cbn [bind].
  rewrite IH; [reflexivity|]. intros b Hb. apply H. right. exact Hb.
Qed.



Lemma filter_pair_same (cls : bool) (y : list bool) :
  List.length (List.filter (fun tp => Bool.eqb (fst tp) cls && Bool.eqb (snd tp) cls)
                           (combine y y))
  = List.length (List.filter (Bool.eqb cls) y).
Proof.
  induction y as [|b y IH]; [reflexivity|].
  simpl. destruct b, cls; simpl; rewrite IH; reflexivity.
Qed.

Lemma class_fscore_perfect (cls : bool) (y : list bool) (beta : Q) :
  class_fscore cls y y beta * class_support cls y == class_support cls y.
Proof.
  unfold class_fscore, class_support.
  assert (Htp : count_where (fun tp => Bool.eqb (fst tp) cls && Bool.eqb (snd tp) cls)
                  (combine y y) = count_where (Bool.eqb cls) y).
  { unfold count_where. rewrite filter_pair_same. reflexivity. }
  rewrite Htp. set (n := count_where (Bool.eqb cls) y).
  unfold prf_divide. destruct (Qeq_bool n 0) eqn:E.
  - apply Qeq_bool_iff in E.
    set (X := (1 + beta * beta) * 0 * 0 / _). rewrite E. ring.
  - apply Qeq_bool_neq in E.
    assert (H1 : n / n == 1) by (field; exact E).
    assert (Hb : 0 <= beta * beta) by nra.
    destruct (Qeq_bool (beta * beta * (n / n) + n / n) 0) eqn:E2.
    + apply Qeq_bool_iff in E2. rewrite H1 in E2. exfalso. lra.
    + rewrite H1. field. lra.
Qed.

Lemma support_total (y : list bool) :
  class_support false y + (class_support true y + 0)
  == inject_Z (Z.of_nat (List.length y)).
Proof.
  unfold class_support, count_where.
  rewrite Qplus_0_r, <- inject_Z_plus, <- Nat2Z.inj_add.
  apply inject_Z_injective. f_equal.
  induction y as [|b y IH]; [reflexivity|].
  destruct b; simpl; lia.
Qed.

(** A column predicted exactly scores 1 (when it has at least one row). *)
Lemma weighted_fscore_perfect (y : list bool) (beta : Q) :
  y <> [] -> weighted_fscore y y beta == 1.
Proof.
  intros Hy. unfold weighted_fscore, classes. cbn [List.map Qsum fold_right].
  pose proof (support_total y) as Htot.
  assert (Hlen : 0 < inject_Z (Z.of_nat (List.length y))).
  { change 0 with (inject_Z 0). rewrite <- Zlt_Qlt.
    destruct y; [contradiction|simpl; lia]. }
  destruct (Qeq_bool _ 0) eqn:E.
  - apply Qeq_bool_iff in E. exfalso. lra.
  - rewrite !class_fscore_perfect. field. lra.
Qed.

End ScoreFacts.








(** Arrays that agree in every entry are such an input. *)
Lemma identical_arrays_all_perfect (y : ndarray) (beta : Q) :
  Evaluator.rows y <> [] ->
  Forall (fun s => s == 1)%Q (per_column_scores y y beta).
Proof.
  intros Hrows. unfold per_column_scores. apply List.Forall_forall.
  intros s Hs. apply in_map_iff in Hs. destruct Hs as (c & <- & _).
  apply weighted_fscore_perfect. unfold column_values.
  destruct (Evaluator.rows y); [contradiction|discriminate].
Qed.

(** ** ETL: [clean_data] *)
Import ProcessData.

Section ResultFacts.
Context {A B : Type}.

Lemma mapM_inv (f : A -> result B) (l : list A) (r : list B) :
  mapM f l = Returned r -> List.Forall2 (fun a b => f a = Returned b) l r.
Proof.
  revert r. induction l as [|a l IH]; intros r H; cbn [mapM] in H.
  - injection H as <-. constructor.
  - destruct (f a) as [b|e] eqn:Ea; cbn [bind] in H; [|discriminate].
    destruct (mapM f l) as [bs|e] eqn:El; cbn [bind] in H; [|discriminate].
    injection H as <-. constructor; [exact Ea|apply IH; reflexivity].
Qed.

Lemma mapM_length (f : A -> result B) (l : list A) (r : list B) :
  mapM f l = Returned r -> List.length r = List.length l.
Proof.
  intros H. apply mapM_inv in H. induction H; simpl; congruence.
Qed.

Lemma mapM_each (f : A -> result B) (l : list A) (r : list B) (a : A) :
  mapM f l = Returned r -> In a l -> exists b, f a = Returned b.
Proof.
  intros H. apply mapM_inv in H. induction H as [|x y l r Hxy _ IH]; intros Hin.
  - destruct Hin.
  - destruct Hin as [<-|Hin]; [eauto|auto].
Qed.

(** The first failure decides: when every failure raises [e0] and some
    element fails, the whole traversal raises [e0]. *)
Lemma mapM_raises (f : A -> result B) (l : list A) (e0 : exn) :
  (forall a e, In a l -> f a = Raised e -> e = e0) ->
  (exists a, In a l /\ f a = Raised e0) ->
  mapM f l = Raised e0.
Proof.
  induction l as [|a l IH]; intros Hall (x & Hin & Hx); [destruct Hin|].
  cbn [mapM]. destruct (f a) as [b|e] eqn:Ea; cbn [bind].
  - destruct Hin as [->|Hin]; [congruence|].
    rewrite IH; [reflexivity| |eauto].
    intros y e Hy. apply Hall. right. exact Hy.
  - f_equal. apply (Hall a e); [left; reflexivity|exact Ea].
Qed.

End ResultFacts.

Section ExpandFacts.

Lemma width_of_ge (fields : list (list (option string))) (l : list (option string)) :
  In l fields -> (List.length l <= width_of fields)%nat.
Proof.
  unfold width_of. induction fields as [|x xs IH]; intros Hin; [destruct Hin|].
  cbn [List.map fold_right]. destruct Hin as [->|Hin]; [lia|].
  specialize (IH Hin). lia.
Qed.

Lemma pad_to_length {X : Type} (n : nat) (l : list (option X)) :
  (List.length l <= n)%nat -> List.length (pad_to n l) = n.
Proof.
  intros H. unfold pad_to. rewrite List.length_app, List.repeat_length. lia.
Qed.

Lemma expand_length (fields : list (list (option string))) :
  List.length (expand fields) = List.length fields.
Proof. unfold expand. apply List.length_map. Qed.

Lemma expand_row_length (fields : list (list (option string)))
    (r : list (option string)) :
  In r (expand fields) -> List.length r = width_of fields.
Proof.
  unfold expand. rewrite in_map_iff.
  intros (l & <- & Hl). apply pad_to_length, width_of_ge, Hl.
Qed.

Lemma categories_of_length (df : frame) :
  List.length (categories_of df) = List.length (rows df).
Proof. unfold categories_of. rewrite expand_length. apply List.length_map. Qed.

(** All rows of the expanded table are as wide as its first row. *)
Lemma categories_of_row_length (df : frame) (row r : list (option string))
    (rest : list (list (option string))) :
  categories_of df = row :: rest -> In r (categories_of df) ->
  List.length r = List.length row.
Proof.
  intros E Hr. unfold categories_of in *.
  rewrite (expand_row_length _ r Hr).
  symmetry. apply expand_row_length. rewrite E. left. reflexivity.
Qed.

End ExpandFacts.

Section CleanDataFacts.
Local Open Scope Z_scope.

Lemma parse_category_value_spec (field : option string) :
  parse_category_value field
  = if field_ok field then Returned (digit_of_field field) else Raised ValueError.
Proof.
  unfold parse_category_value, field_ok, digit_of_field.
  destruct field as [s|]; [|reflexivity].
  destruct (last_char (strip s)) as [c|]; [|reflexivity].
  destruct (isdigit c); reflexivity.
Qed.

Lemma parse_returned_ok (field : option string) (z : Z) :
  parse_category_value field = Returned z ->
  field_ok field = true /\ z = digit_of_field field.
Proof.
  rewrite parse_category_value_spec. destruct (field_ok field); [|discriminate].
  intros H. injection H as <-. split; reflexivity.
Qed.

Lemma nth_map_lt {X Y : Type} (f : X -> Y) (l : list X) (i : nat) (d : Y) (d' : X) :
  (i < List.length l)%nat -> nth i (List.map f l) d = f (nth i l d').
Proof.
  revert i. induction l as [|x l IH]; intros i Hi; simpl in Hi; [lia|].
  destruct i; [reflexivity|]. simpl. apply IH. lia.
Qed.

Lemma map_nth_seq {X Y : Type} (g : X -> Y) (l : list X) (d : X) :
  List.map (fun j => g (nth j l d)) (seq 0 (List.length l)) = List.map g l.
Proof.
  induction l as [|x l IH]; [reflexivity|].
  cbn [List.length seq List.map nth]. f_equal.
  rewrite <- seq_shift, List.map_map. exact IH.
Qed.

Lemma convert_column_returns (names : list string)
    (categories : list (list (option string))) (j : nat) :
  (1 <? count_label (nth j names "") names)%nat = false ->
  Forall (fun r => field_ok (nth j r None) = true) categories ->
  convert_column names categories j
  = Returned (List.map (fun r => digit_of_field (nth j r None)) categories).
Proof.
  intros Hu Hok. unfold convert_column. rewrite Hu.
  apply mapM_returns. intros r Hr. rewrite parse_category_value_spec.
  rewrite List.Forall_forall in Hok. rewrite (Hok r Hr). reflexivity.
Qed.

Lemma convert_column_inv (names : list string)
    (categories : list (list (option string))) (j : nat) (col : list Z) :
  convert_column names categories j = Returned col ->
  (1 <? count_label (nth j names "") names)%nat = false
  /\ Forall (fun r => field_ok (nth j r None) = true) categories.
Proof.
  unfold convert_column.
  destruct (1 <? count_label (nth j names "") names)%nat; [discriminate|].
  intros H. split; [reflexivity|]. apply List.Forall_forall. intros r Hr.
  destruct (mapM_each _ _ _ r H Hr) as (z & Hz).
  apply parse_returned_ok in Hz. apply Hz.
Qed.

(** The table converted column by column, read row by row. *)
Lemma row_of_converted (categories : list (list (option string))) (w i : nat) :
  (i < List.length categories)%nat ->
  List.length (nth i categories []) = w ->
  row_of_columns
    (List.map (List.map replace_2_by_1)
       (List.map (fun j => List.map (fun r => digit_of_field (nth j r None)) categories)
                 (seq 0 w))) i
  = List.map (fun f => Int (replace_2_by_1 (digit_of_field f))) (nth i categories []).
Proof.
  intros Hi Hw. unfold row_of_columns. rewrite !List.map_map.
  rewrite <- Hw, <- (map_nth_seq _ (nth i categories []) None).
  apply List.map_ext. intros j.
  rewrite (nth_map_lt _ _ i 0 0) by (rewrite List.length_map; exact Hi).
  rewrite (nth_map_lt _ _ i 0 []) by exact Hi. reflexivity.
Qed.

Lemma zip_rows_joined {X : Type} (dc : list cell -> list cell)
    (G : X -> list cell) (rowf : nat -> list cell) (d : X)
    (R : list (list cell)) (C : list X) (k : nat) :
  List.length C = List.length R ->
  (forall i, (i < List.length R)%nat -> rowf (k + i)%nat = G (nth i C d)) ->
  List.map (fun ir => (snd ir ++ rowf (fst ir))%list)
           (combine (seq k (List.length R)) (List.map dc R))
  = List.map (fun rf => (dc (fst rf) ++ G (snd rf))%list) (combine R C).
Proof.
  revert C k. induction R as [|r R IH]; intros [|c C] k Hlen Hrow;
    simpl in Hlen; try discriminate; [reflexivity|].
  cbn [List.length seq List.map combine fst snd]. f_equal.
  - rewrite <- (Nat.add_0_r k), (Hrow 0%nat) by (simpl; lia). reflexivity.
  - apply IH; [lia|]. intros i Hi.
    replace (S k + i)%nat with (k + S i)%nat by lia.
    apply (Hrow (S i)). simpl. lia.
Qed.

Lemma in_nth_lt {X : Type} (l : list X) (i : nat) (d : X) :
  (i < List.length l)%nat -> In (nth i l d) l.
Proof. apply nth_In. Qed.

(** [clean_data_dedup] returns when the first row names every column once
    and every field converts; its rows are [joined_rows] without
    duplicates. *)
Lemma clean_data_dedup_returns (df : frame) (row : list (option string))
    (rest : list (list (option string))) (names : list string) :
  count_label "categories" (columns df) = 1%nat ->
  categories_of df = row :: rest ->
  mapM colname row = Returned names ->
  unique_labels names ->
  all_fields_ok (categories_of df) ->
  clean_data_dedup df
  = Returned {| columns := (drop_label "categories" (columns df) ++ names)%list;
                rows := drop_duplicates_rows [] (joined_rows df) |}.
Proof.
  intros Hc E Hnames Hu Hok. unfold clean_data_dedup.
  rewrite Hc. cbn [bind]. rewrite E. cbn [bind]. rewrite Hnames. cbn [bind].
  rewrite <- E.
  pose proof (mapM_length _ _ _ Hnames) as Hlen.
  assert (Hrowlen : forall r, In r (categories_of df) ->
                              List.length r = List.length names).
  { intros r Hr. rewrite Hlen. eapply categories_of_row_length; eauto. }
  assert (Hconv : convert_all names (categories_of df)
                  = Returned (List.map (fun j => List.map
                                 (fun r => digit_of_field (nth j r None))
                                 (categories_of df))
                               (seq 0 (List.length names)))).
  { unfold convert_all. apply mapM_returns. intros j Hj. apply in_seq in Hj.
    apply convert_column_returns; [apply Hu; lia|].
    apply List.Forall_forall. intros r Hr.
    unfold all_fields_ok in Hok. rewrite List.Forall_forall in Hok.
    specialize (Hok r Hr). rewrite List.Forall_forall in Hok.
    apply Hok. apply nth_In. rewrite (Hrowlen r Hr). lia. }
  rewrite Hconv. cbn [bind]. unfold drop_column. rewrite Hc.
  cbn [Nat.eqb bind]. unfold drop_duplicates, concat_columns.
  cbn [columns rows]. do 3 f_equal.
  unfold joined_rows. rewrite List.length_map.
  apply (zip_rows_joined _ _ _ []).
  - apply categories_of_length.
  - intros i Hi. cbn [Nat.add]. apply row_of_converted.
    + rewrite categories_of_length. exact Hi.
    + apply Hrowlen, nth_In. rewrite categories_of_length. exact Hi.
Qed.

(** Conversely, a returned frame means that all of this held. *)
Lemma clean_data_dedup_inv (df out : frame) :
  clean_data_dedup df = Returned out ->
  exists row rest names,
    count_label "categories" (columns df) = 1%nat
    /\ categories_of df = row :: rest
    /\ mapM colname row = Returned names
    /\ unique_labels names
    /\ all_fields_ok (categories_of df)
    /\ out = {| columns := (drop_label "categories" (columns df) ++ names)%list;
                rows := drop_duplicates_rows [] (joined_rows df) |}.
Proof.
  intros H. pose proof H as H0. unfold clean_data_dedup in H.
  destruct (count_label "categories" (columns df)) as [|[|n]] eqn:Hc;
    cbn [bind] in H; try discriminate.
  destruct (categories_of df) as [|row rest] eqn:E; cbn [bind] in H;
    [discriminate|].
  destruct (mapM colname row) as [names|e] eqn:Hnames; cbn [bind] in H;
    [|discriminate].
  destruct (convert_all names (row :: rest)) as [conv|e] eqn:Hconv;
    cbn [bind] in H; [|discriminate].
  clear H.
  pose proof (mapM_length _ _ _ Hnames) as Hlen.
  assert (Hcols : forall j, (j < List.length names)%nat ->
            (1 <? count_label (nth j names "") names)%nat = false
            /\ Forall (fun r => field_ok (nth j r None) = true) (row :: rest)).
  { intros j Hj. unfold convert_all in Hconv.
    destruct (mapM_each _ _ _ j Hconv) as (col & Hcol); [apply in_seq; lia|].
    eapply convert_column_inv, Hcol. }
  assert (Hu : unique_labels names) by (intros j Hj; apply Hcols, Hj).
  assert (Hok : all_fields_ok (row :: rest)).
  { apply List.Forall_forall. intros r Hr. apply List.Forall_forall. intros f Hf.
    destruct (In_nth _ _ None Hf) as (j & Hj & <-).
    assert (Hrl : List.length r = List.length row).
    { eapply categories_of_row_length; [exact E|]. rewrite E. exact Hr. }
    destruct (Hcols j) as [_ Hall]; [lia|].
    rewrite List.Forall_forall in Hall. apply Hall, Hr. }
  exists row, rest, names. repeat split; try assumption.
  rewrite <- E in Hok.
  pose proof (clean_data_dedup_returns df row rest names Hc E Hnames Hu Hok) as H1.
  rewrite H1 in H0. injection H0 as <-. reflexivity.
Qed.

End CleanDataFacts.

Section DuplicateFacts.

Lemma cell_eqb_eq (a b : cell) : cell_eqb a b = true <-> a = b.
Proof.
  destruct a as [s|x|], b as [t|y|]; simpl; split; intros H;
    try discriminate; try reflexivity.
  - apply String.eqb_eq in H. congruence.
  - injection H as ->. apply String.eqb_refl.
  - apply Z.eqb_eq in H. congruence.
  - injection H as ->. apply Z.eqb_refl.
Qed.

Lemma row_eqb_refl (r : list cell) : row_eqb r r = true.
Proof.
  unfold row_eqb. induction r as [|a r IH]; [reflexivity|].
  apply andb_prop in IH. destruct IH as [Hlen Hall]. simpl.
  rewrite Hall, Nat.eqb_refl, (proj2 (cell_eqb_eq a a) eq_refl). reflexivity.
Qed.

Lemma row_eqb_eq (r1 r2 : list cell) : row_eqb r1 r2 = true <-> r1 = r2.
Proof.
  split; [|intros ->; apply row_eqb_refl].
  unfold row_eqb. revert r2.
  induction r1 as [|a r1 IH]; intros [|b r2]; simpl; intros H;
    try discriminate; [reflexivity|].
  apply andb_prop in H. destruct H as [Hlen H].
  apply andb_prop in H. destruct H as [Hab H].
  apply cell_eqb_eq in Hab. subst b. f_equal. apply IH.
  rewrite Hlen. exact H.
Qed.

Lemma existsb_row_eqb (r : list cell) (seen : list (list cell)) :
  existsb (row_eqb r) seen = true <-> In r seen.
Proof.
  rewrite existsb_exists. split.
  - intros (x & Hx & E). apply row_eqb_eq in E. subst. exact Hx.
  - intros H. exists r. split; [exact H|]. apply row_eqb_eq. reflexivity.
Qed.

Lemma drop_duplicates_rows_spec (seen l : list (list cell)) :
  List.NoDup (drop_duplicates_rows seen l)
  /\ (forall r, In r (drop_duplicates_rows seen l) -> In r l /\ ~ In r seen).
Proof.
  revert seen. induction l as [|r l IH]; intros seen; simpl.
  - split; [constructor|]. intros r [].
  - destruct (existsb (row_eqb r) seen) eqn:E.
    + destruct (IH seen) as [Hnd Hin]. split; [exact Hnd|].
      intros x Hx. destruct (Hin x Hx). auto.
    + destruct (IH (r :: seen)) as [Hnd Hin]. split.
      * constructor; [|exact Hnd]. intros Hr.
        destruct (Hin r Hr) as [_ Hn]. apply Hn. left. reflexivity.
      * intros x [<-|Hx].
        -- split; [left; reflexivity|]. intros Hs.
           apply existsb_row_eqb in Hs. congruence.
        -- destruct (Hin x Hx) as [H1 H2]. split; [right; exact H1|].
           intros Hs. apply H2. right. exact Hs.
Qed.

Lemma drop_duplicates_rows_length (seen l : list (list cell)) :
  (List.length (drop_duplicates_rows seen l) <= List.length l)%nat.
Proof.
  revert seen. induction l as [|r l IH]; intros seen; simpl; [lia|].
  destruct (existsb (row_eqb r) seen); simpl.
  - specialize (IH seen). lia.
  - specialize (IH (r :: seen)). lia.
Qed.

Lemma drop_cells_length (name : string) (labels : list string) (r : list cell) :
  List.length r = List.length labels ->
  List.length (drop_cells name labels r) = List.length (drop_label name labels).
Proof.
  unfold drop_cells, drop_label. rewrite List.length_map. revert r.
  induction labels as [|l labels IH]; intros [|c r] H; simpl in *;
    try discriminate; [reflexivity|].
  destruct (String.eqb l name); simpl; rewrite IH by lia; reflexivity.
Qed.

(** A row is determined by what [drop] keeps and what it removes. *)
Lemma drop_cells_injective (name : string) (labels : list string)
    (r1 r2 : list cell) :
  List.length r1 = List.length labels ->
  List.length r2 = List.length labels ->
  drop_cells name labels r1 = drop_cells name labels r2 ->
  cells_at name labels r1 = cells_at name labels r2 ->
  r1 = r2.
Proof.
  unfold drop_cells, cells_at. revert r1 r2.
  induction labels as [|l labels IH]; intros [|a r1] [|b r2] H1 H2 Hd Hc;
    simpl in *; try discriminate; [reflexivity|].
  destruct (String.eqb l name); simpl in *.
  - injection Hc as -> Hc. f_equal. apply IH; auto.
  - injection Hd as -> Hd. f_equal. apply IH; auto.
Qed.

Lemma NoDup_map_on {X Y : Type} (f : X -> Y) (l : list X) :
  (forall x y, In x l -> In y l -> f x = f y -> x = y) ->
  List.NoDup l -> List.NoDup (List.map f l).
Proof.
  intros Hinj Hnd. induction Hnd as [|x l Hx Hnd IH]; simpl; constructor.
  - rewrite in_map_iff. intros (y & Hy & Hin).
    assert (y = x) by (apply Hinj; [right; exact Hin|left; reflexivity|exact Hy]).
    subst. contradiction.
  - apply IH. intros a b Ha Hb. apply Hinj; right; assumption.
Qed.

Lemma joined_rows_length (df : frame) :
  List.length (joined_rows df) = List.length (rows df).
Proof.
  unfold joined_rows.
  rewrite List.length_map, List.length_combine, categories_of_length. lia.
Qed.

End DuplicateFacts.

Section CleaningTheorems.
Local Open Scope Z_scope.

Lemma mapM_raised_inv {A B : Type} (f : A -> result B) (l : list A) (e : exn) :
  mapM f l = Raised e -> exists a, In a l /\ f a = Raised e.
Proof.
  induction l as [|a l IH]; cbn [mapM]; [discriminate|].
  destruct (f a) as [b|e'] eqn:Ea; cbn [bind].
  - destruct (mapM f l) as [bs|e'] eqn:El; cbn [bind]; [discriminate|].
    intros H. injection H as ->. destruct (IH eq_refl) as (x & Hx & Hfx).
    exists x. split; [right; exact Hx|exact Hfx].
  - intros H. injection H as ->. exists a. split; [left; reflexivity|exact Ea].
Qed.

Lemma convert_column_raises_ValueError (names : list string)
    (categories : list (list (option string))) (j : nat) (e : exn) :
  (1 <? count_label (nth j names "") names)%nat = false ->
  convert_column names categories j = Raised e -> e = ValueError.
Proof.
  intros Hu. unfold convert_column. rewrite Hu. intros H.
  apply mapM_raised_inv in H. destruct H as (r & _ & Hr).
  rewrite parse_category_value_spec in Hr.
  destruct (field_ok (nth j r None)); congruence.
Qed.

(** A field that does not convert stops [clean_data] with [ValueError]. *)
Lemma clean_data_dedup_raises (df : frame) (row : list (option string))
    (rest : list (list (option string))) (names : list string)
    (r : list (option string)) (f : option string) :
  count_label "categories" (columns df) = 1%nat ->
  categories_of df = row :: rest ->
  mapM colname row = Returned names ->
  unique_labels names ->
  In r (categories_of df) -> In f r -> field_ok f = false ->
  clean_data_dedup df = Raised ValueError.
Proof.
  intros Hc E Hnames Hu Hr Hf Hbad. unfold clean_data_dedup.
  rewrite Hc. cbn [bind]. rewrite E. cbn [bind]. rewrite Hnames. cbn [bind].
  rewrite <- E.
  assert (Hconv : convert_all names (categories_of df) = Raised ValueError).
  { unfold convert_all. apply mapM_raises.
    - intros j e Hj. apply in_seq in Hj.
      apply convert_column_raises_ValueError, Hu. lia.
    - destruct (In_nth _ _ None Hf) as (j & Hj & Ej).
      assert (Hlen : List.length r = List.length names).
      { rewrite (mapM_length _ _ _ Hnames).
        eapply categories_of_row_length; eauto. }
      exists j. split; [apply in_seq; lia|].
      unfold convert_column. rewrite (Hu j) by lia.
      apply mapM_raises.
      + intros r' e _ H'. rewrite parse_category_value_spec in H'.
        destruct (field_ok (nth j r' None)); congruence.
      + exists r. split; [exact Hr|].
        rewrite parse_category_value_spec, Ej, Hbad. reflexivity. }
  rewrite Hconv. reflexivity.
Qed.

Lemma field_ok_digit_range (f : option string) :
  field_ok f = true -> 0 <= digit_of_field f <= 9.
Proof.
  unfold field_ok, digit_of_field. destruct f as [s|]; [|discriminate].
  destruct (last_char (strip s)) as [c|]; [|discriminate].
  unfold isdigit, in_range, digit_value. intros H.
  apply andb_prop in H. destruct H as [H1 H2].
  apply Nat.leb_le in H1, H2. change (code "0") with 48%nat in H1.
  change (code "9") with 57%nat in H2. lia.
Qed.

End CleaningTheorems.







Section DuplicateRows.

Lemma joined_row_length (df : frame) (row : list (option string))
    (rest : list (list (option string))) (names : list string) (r : list cell) :
  well_formed df ->
  categories_of df = row :: rest ->
  mapM colname row = Returned names ->
  In r (joined_rows df) ->
  List.length r
  = List.length (drop_label "categories" (columns df) ++ names)%list.
Proof.
  intros Hwf E Hnames Hr. unfold joined_rows in Hr.
  apply in_map_iff in Hr. destruct Hr as ([r0 fields] & <- & Hin).
  cbn [fst snd]. rewrite !List.length_app, List.length_map.
  pose proof (in_combine_l _ _ _ _ Hin) as H0.
  pose proof (in_combine_r _ _ _ _ Hin) as H1.
  unfold well_formed in Hwf. rewrite List.Forall_forall in Hwf.
  rewrite (drop_cells_length _ _ _ (Hwf r0 H0)).
  rewrite (categories_of_row_length df row fields rest E H1).
  rewrite (mapM_length _ _ _ Hnames). reflexivity.
Qed.

End DuplicateRows.

(** C6 (amended).  Whenever [clean_data] returns, the output has at most as
    many rows as the input, and the rows are pairwise different right after
    [drop_duplicates], that is before [child_alone] is dropped.  The output
    itself has no two identical rows when the rows agree on [child_alone]
    (the column the code takes to be constant). *)
Theorem clean_data_rows_distinct_before_drop (df out : frame) :
  clean_data df = Returned out ->
  (List.length (rows out) <= List.length (rows df))%nat
  /\ exists mid,
       clean_data_dedup df = Returned mid
       /\ List.NoDup (rows mid)
       /\ rows out = List.map (drop_cells "child_alone" (columns mid)) (rows mid)
       /\ (well_formed df ->
           (forall r1 r2, In r1 (rows mid) -> In r2 (rows mid) ->
              cells_at "child_alone" (columns mid) r1
              = cells_at "child_alone" (columns mid) r2) ->
           List.NoDup (rows out)).
Proof.
  unfold clean_data. intros H.
  destruct (clean_data_dedup df) as [mid|e] eqn:Hmid; cbn [bind] in H;
    [|discriminate].
  destruct (clean_data_dedup_inv df mid Hmid)
    as (row & rest & names & _ & E & Hnames & _ & _ & ->).
  unfold drop_column in H.
  destruct (count_label "child_alone" _ =? 0)%nat; [discriminate|].
  injection H as <-. cbn [rows columns].
  destruct (drop_duplicates_rows_spec [] (joined_rows df)) as [Hnd Hsub].
  split.
  - rewrite List.length_map.
    pose proof (drop_duplicates_rows_length [] (joined_rows df)) as Hle.
    rewrite joined_rows_length in Hle. exact Hle.
  - eexists. split; [reflexivity|]. cbn [rows columns].
    split; [exact Hnd|]. split; [reflexivity|].
    intros Hwf Hconst. apply NoDup_map_on; [|exact Hnd].
    intros r1 r2 H1 H2 Hd.
    apply (drop_cells_injective "child_alone"
             (drop_label "categories" (columns df) ++ names)%list).
    + eapply joined_row_length; eauto. apply Hsub, H1.
    + eapply joined_row_length; eauto. apply Hsub, H2.
    + exact Hd.
    + apply Hconst; assumption.
Qed.

Lemma clean_data_rows_distinct_before_drop_witness :
  exists out,
    clean_data sample_messages = Returned out
    /\ (List.length (rows out) <= List.length (rows sample_messages))%nat.
Proof.
  eexists. split; [vm_compute; reflexivity|].
  exact (proj1 (clean_data_rows_distinct_before_drop sample_messages _
                  ltac:(vm_compute; reflexivity))).
Defined.

(** C6 (as stated, refuted).  Two records that differ in [child_alone]
    only both survive [drop_duplicates]; once [child_alone] is dropped they
    are the same row, twice in the output. *)
Lemma clean_data_leaves_identical_rows :
  clean_data sample_messages
  = Returned
      {| columns := ["id"; "message"; "original"; "genre"; "related"; "aid_related"];
         rows := [[Int 1; Str "Need water"; Missing; Str "direct"; Int 1; Int 1];
                  [Int 1; Str "Need water"; Missing; Str "direct"; Int 1; Int 1];
                  [Int 2; Str "Storm coming"; Missing; Str "news"; Int 0; Int 0]] |}
  /\ forall out, clean_data sample_messages = Returned out ->
                 ~ List.NoDup (rows out).
Proof.
  assert (H : clean_data sample_messages
    = Returned
      {| columns := ["id"; "message"; "original"; "genre"; "related"; "aid_related"];
         rows := [[Int 1; Str "Need water"; Missing; Str "direct"; Int 1; Int 1];
                  [Int 1; Str "Need water"; Missing; Str "direct"; Int 1; Int 1];
                  [Int 2; Str "Storm coming"; Missing; Str "news"; Int 0; Int 0]] |})
    by (vm_compute; reflexivity).
  split; [exact H|]. intros out Hout. rewrite H in Hout. injection Hout as <-.
  cbn [rows]. intros Hnd. inversion Hnd as [|x l Hnotin _]; subst.
  apply Hnotin. left. reflexivity.
Qed.

(** ** The round trip through the database *)
Import Store.

Section StoreFacts.
Variable df : frame.
Variable database_filename : string.
Variable db : gmap string (gmap string frame).

Lemma engine_urls_agree :
  create_engine ("sqlite:///" +:+ database_filename)
  = create_engine (format_sqlite_url database_filename).
Proof. reflexivity. Qed.

Lemma save_data_tables :
  save_data df database_filename db !! format_sqlite_url database_filename
  = Some (<["DisasterResponse_table" := df]>
            (default ∅ (db !! format_sqlite_url database_filename))).
Proof. unfold save_data, to_sql, create_engine. apply lookup_insert_eq. Qed.

Lemma load_table_after_save :
  load_table database_filename (save_data df database_filename db) = Returned df.
Proof.
  unfold load_table, read_sql_table, create_engine.
  rewrite save_data_tables, lookup_insert_eq. reflexivity.
Qed.

End StoreFacts.

(** C9.  For every database file name, [save_data] writes the frame under
    the table name [DisasterResponse_table], whatever name it derives from
    the file name, as a replacement of that table in the database of that
    file; [load_data_from_db] reads the table of that name from the same
    database, so it gets the saved frame back and returns its [message]
    column, the columns from the fifth on and their labels. *)
Theorem save_then_load_same_table (df : frame) (database_filename : string)
    (db : gmap string (gmap string frame)) :
  save_data df database_filename db
  = <[format_sqlite_url database_filename :=
        <["DisasterResponse_table" := df]>
          (default ∅ (db !! format_sqlite_url database_filename))]> db
  /\ load_table database_filename (save_data df database_filename db) = Returned df
  /\ load_data_from_db database_filename (save_data df database_filename db)
     = match count_label "message" (columns df) with
       | O => Raised KeyError
       | _ => Returned
                (List.concat (List.map (cells_at "message" (columns df)) (rows df)),
                 {| columns := skipn 4 (columns df);
                    rows := List.map (skipn 4) (rows df) |},
                 skipn 4 (columns df))
       end.
Proof.
  split; [reflexivity|]. split; [apply load_table_after_save|].
  unfold load_data_from_db. rewrite load_table_after_save. cbn [bind].
  destruct (count_label "message" (columns df)); reflexivity.
Qed.

(** The name computed from the file name is another one in general, and
    nothing is stored under it. *)
Lemma save_data_ignores_table_name :
  save_data_table_name "other.db" = "other_table"
  /\ forall df,
       read_sql_table (save_data_table_name "other.db")
         (format_sqlite_url "other.db") (save_data df "other.db" ∅)
       = Raised ValueError.
Proof.
  split; [vm_compute; reflexivity|]. intros df.
  change (save_data_table_name "other.db") with "other_table".
  unfold read_sql_table. rewrite save_data_tables.
  rewrite lookup_insert_ne by discriminate.
  rewrite lookup_empty. simpl. rewrite lookup_empty. reflexivity.
Qed.

(** * Further properties of the two scripts *)

(** ** [tokenize] *)
Section TokenProperties.

Lemma lstrip_first_not_space (s : string) : first_not_space (lstrip s).
Proof.
  induction s as [|c s IH]; [exact I|]. simpl.
  destruct (isspace c) eqn:E; [exact IH|exact E].
Qed.

Lemma rstrip_idempotent (s : string) : rstrip (rstrip s) = rstrip s.
Proof.
  induction s as [|c s IH]; [reflexivity|]. simpl.
  destruct (rstrip s) as [|c' r] eqn:E.
  - destruct (isspace c) eqn:Ec; [reflexivity|]. simpl. rewrite Ec. reflexivity.
  - cbn [rstrip]. cbn [rstrip] in IH. rewrite IH. reflexivity.
Qed.

Lemma rstrip_keeps_first (s : string) :
  first_not_space s -> first_not_space (rstrip s).
Proof.
  destruct s as [|c s]; [exact (fun H => H)|]. simpl. intros Hc.
  destruct (rstrip s); [rewrite Hc|]; exact Hc.
Qed.

Lemma lstrip_fixed (s : string) : first_not_space s -> lstrip s = s.
Proof. destruct s as [|c s]; [reflexivity|]. simpl. intros ->. reflexivity. Qed.

Lemma strip_idempotent (s : string) : strip (strip s) = strip s.
Proof.
  unfold strip.
  rewrite (lstrip_fixed (rstrip (lstrip s)))
    by apply rstrip_keeps_first, lstrip_first_not_space.
  apply rstrip_idempotent.
Qed.

End TokenProperties.

(** X1.  [tokenize] returns one token per token of the word tokenizer, in
    order; every token is free of upper-case letters and has no white space
    at either end. *)
Theorem tokenize_tokens_normalized (N : nltk) (text url_placeholder : string) :
  List.length (tokenize N text url_placeholder)
  = List.length (word_tokenize N (replace_urls text url_placeholder))
  /\ Forall (fun t => all_chars not_upper t = true /\ strip t = t)
            (tokenize N text url_placeholder).
Proof.
  split; [apply tokenize_length|].
  rewrite tokenize_unfold. apply List.Forall_forall. intros t Ht.
  apply in_map_iff in Ht. destruct Ht as (w & <- & _). unfold clean_token. split.
  - unfold strip. apply rstrip_all_chars, lstrip_all_chars, lower_not_upper.
  - apply strip_idempotent.
Qed.

Section UrlDetection.

Lemma prefix_cons_inv (a : ascii) (p s : string) :
  String.prefix (String a p) s = true ->
  exists s', s = String a s' /\ String.prefix p s' = true.
Proof.
  destruct s as [|b s']; simpl; [discriminate|].
  destruct (ascii_dec a b) as [<-|]; [|discriminate].
  intros H. exists s'. split; [reflexivity|exact H].
Qed.

Lemma match_url_at_needs_colon (s : string) (n : nat) :
  match_url_at s = Some n -> all_chars no_colon s = false.
Proof.
  unfold match_url_at.
  destruct (String.prefix "http" s) eqn:Hp; [|discriminate].
  repeat (apply prefix_cons_inv in Hp; destruct Hp as (? & -> & Hp)).
  cbn [drop_chars].
  match goal with |- context [String.prefix "s://" ?r] =>
    destruct (String.prefix "s://" r) eqn:H1;
    [|destruct (String.prefix "://" r) eqn:H2; [|discriminate]]
  end; intros _.
  - repeat (apply prefix_cons_inv in H1; destruct H1 as (? & -> & H1)).
    reflexivity.
  - repeat (apply prefix_cons_inv in H2; destruct H2 as (? & -> & H2)).
    reflexivity.
Qed.

Lemma findall_from_no_colon (s : string) (skip : nat) :
  all_chars no_colon s = true -> findall_from skip s = [].
Proof.
  revert skip. induction s as [|c s IH]; intros skip H; [reflexivity|].
  pose proof H as H0. cbn [all_chars] in H. apply andb_prop in H.
  destruct H as [_ Hs]. cbn [findall_from].
  destruct skip as [|k]; [|apply IH, Hs].
  destruct (match_url_at (String c s)) as [n|] eqn:E; [|apply IH, Hs].
  apply match_url_at_needs_colon in E. congruence.
Qed.

End UrlDetection.

(** X2.  A text without a colon holds no URL: the word tokenizer gets the
    text as it is. *)
Theorem tokenize_without_colon (N : nltk) (text url_placeholder : string) :
  all_chars no_colon text = true ->
  findall_urls text = []
  /\ tokenize N text url_placeholder
     = List.map (clean_token N) (word_tokenize N text).
Proof.
  intros H. assert (E : findall_urls text = [])
    by (apply findall_from_no_colon, H).
  split; [exact E|]. rewrite tokenize_unfold. unfold replace_urls.
  rewrite E. reflexivity.
Qed.

Lemma tokenize_without_colon_witness :
  all_chars no_colon "We need water and food" = true
  /\ tokenize sample_nltk "We need water and food" url_placeholder_default
     = ["we"; "need"; "water"; "and"; "food"].
Proof.
  split; [reflexivity|].
  rewrite (proj2 (tokenize_without_colon sample_nltk "We need water and food"
                    url_placeholder_default eq_refl)).
  vm_compute. reflexivity.
Defined.

Section UrlOccurrences.

Lemma substring_drop_chars (n : nat) (s : string) :
  substring 0 n s +:+ drop_chars n s = s.
Proof.
  revert s. induction n as [|n IH]; intros [|c s]; try reflexivity.
  change (String c (substring 0 n s +:+ drop_chars n s) = String c s).
  f_equal. apply IH.
Qed.

Lemma url_run_positive (s : string) (m : nat) :
  url_run s = S m -> exists c s', s = String c s'.
Proof. destruct s as [|c s']; [discriminate|]. eauto. Qed.

Lemma match_url_at_shape (s : string) (n : nat) :
  match_url_at s = Some n ->
  String.prefix "http" (substring 0 n s) = true
  /\ (8 <= String.length (substring 0 n s))%nat.
Proof.
  unfold match_url_at.
  destruct (String.prefix "http" s) eqn:Hp; [|discriminate].
  repeat (apply prefix_cons_inv in Hp; destruct Hp as (? & -> & Hp)).
  cbn [drop_chars].
  match goal with |- context [String.prefix "s://" ?r] =>
    destruct (String.prefix "s://" r) eqn:H1;
    [|destruct (String.prefix "://" r) eqn:H2; [|discriminate]]
  end.
  - repeat (apply prefix_cons_inv in H1; destruct H1 as (? & -> & H1)).
    cbn [drop_chars].
    match goal with |- context [url_run ?r] =>
      destruct (url_run r) as [|m] eqn:Hr; [discriminate|];
      destruct (url_run_positive _ _ Hr) as (c & r' & ->)
    end.
    intros H. injection H as <-. cbn [Nat.add substring String.length].
    split; [reflexivity|lia].
  - repeat (apply prefix_cons_inv in H2; destruct H2 as (? & -> & H2)).
    cbn [drop_chars].
    match goal with |- context [url_run ?r] =>
      destruct (url_run r) as [|m] eqn:Hr; [discriminate|];
      destruct (url_run_positive _ _ Hr) as (c & r' & ->)
    end.
    intros H. injection H as <-. cbn [Nat.add substring String.length].
    split; [reflexivity|lia].
Qed.

Lemma findall_from_occur (s : string) (skip : nat) (u : string) :
  In u (findall_from skip s) ->
  String.prefix "http" u = true
  /\ (8 <= String.length u)%nat
  /\ exists pre post, s = pre +:+ u +:+ post.
Proof.
  revert skip. induction s as [|c s IH]; intros skip Hu; [destruct Hu|].
  assert (Hlater : forall k, In u (findall_from k s) ->
            String.prefix "http" u = true /\ (8 <= String.length u)%nat
            /\ exists pre post, String c s = pre +:+ u +:+ post).
  { intros k Hk. destruct (IH k Hk) as (H1 & H2 & pre & post & ->).
    split; [exact H1|]. split; [exact H2|].
    exists (String c pre), post. reflexivity. }
  cbn [findall_from] in Hu. destruct skip as [|k]; [|exact (Hlater k Hu)].
  destruct (match_url_at (String c s)) as [n|] eqn:E; [|exact (Hlater 0%nat Hu)].
  destruct Hu as [<-|Hu]; [|exact (Hlater _ Hu)].
  destruct (match_url_at_shape _ _ E) as [H1 H2].
  split; [exact H1|]. split; [exact H2|].
  exists "", (drop_chars n (String c s)).
  symmetry. apply (substring_drop_chars n (String c s)).
Qed.

End UrlOccurrences.

(** X3.  Every URL that [re.findall] detects occurs in the text, starts
    with [http] and has at least eight characters; the string handed to
    [text.replace] is therefore never empty. *)
Theorem findall_urls_occur (text u : string) :
  In u (findall_urls text) ->
  String.prefix "http" u = true
  /\ (8 <= String.length u)%nat
  /\ exists pre post, text = pre +:+ u +:+ post.
Proof. apply findall_from_occur. Qed.

Lemma findall_urls_occur_witness :
  In "http://example.com/path" (findall_urls "Check http://example.com/path now")
  /\ exists pre post,
       "Check http://example.com/path now"
       = pre +:+ "http://example.com/path" +:+ post.
Proof.
  assert (H : In "http://example.com/path"
                 (findall_urls "Check http://example.com/path now"))
    by (vm_compute; left; reflexivity).
  split; [exact H|].
  exact (proj2 (proj2 (findall_urls_occur _ _ H))).
Defined.

(** ** [StartingVerbExtractor] *)
Section StartingVerbProperties.
Variable N : nltk.

Lemma pos_tag_first_word (tokens : list string) (w t : string)
    (rest : list (string * string)) :
  pos_tag N tokens = (w, t) :: rest -> exists tokens', tokens = w :: tokens'.
Proof.
  unfold pos_tag. destruct tokens as [|w' tokens']; [discriminate|].
  destruct (pos_tagger N (w' :: tokens')); [discriminate|].
  simpl. intros H. injection H as -> _ _. eauto.
Qed.

Lemma first_word_never_RT (sentence w t : string) (rest : list (string * string)) :
  pos_tag N (tokenize N sentence url_placeholder_default) = (w, t) :: rest ->
  String.eqb w "RT" = false.
Proof.
  intros H. apply pos_tag_first_word in H. destruct H as (tokens' & H).
  rewrite tokenize_unfold in H.
  destruct (word_tokenize N _) as [|w0 ws]; [discriminate|].
  simpl in H. injection H as <- _.
  apply String.eqb_neq, clean_token_never_RT.
Qed.

Lemma starting_verb_loop_true (sentence_list : list string) :
  starting_verb_loop N sentence_list = Returned true ->
  Exists (fun s => exists w t rest,
            pos_tag N (tokenize N s url_placeholder_default) = (w, t) :: rest
            /\ is_verb_tag t = true) sentence_list.
Proof.
  induction sentence_list as [|s l IH]; cbn [starting_verb_loop]; [discriminate|].
  destruct (pos_tag N (tokenize N s url_placeholder_default))
    as [|[w t] rest] eqn:E; [discriminate|].
  rewrite (first_word_never_RT s w t rest E), orb_false_r.
  destruct (is_verb_tag t) eqn:Ht.
  - intros _. apply Exists_cons_hd. exists w, t, rest. split; [exact E|exact Ht].
  - intros H. apply Exists_cons_tl, IH, H.
Qed.

Lemma starting_verb_loop_prefix (pre : list string) (rest : list string) :
  Forall (fun x => tokenize N x url_placeholder_default <> []
                   /\ first_token_check N x = false) pre ->
  starting_verb_loop N (pre ++ rest)%list = starting_verb_loop N rest.
Proof.
  induction 1 as [|x pre [Hx Hc] _ IH]; [reflexivity|].
  cbn [List.app starting_verb_loop]. unfold first_token_check in Hc.
  destruct (pos_tag N (tokenize N x url_placeholder_default)) as [|[w t] tags] eqn:E.
  - apply pos_tag_nil_iff in E. contradiction.
  - rewrite Hc. exact IH.
Qed.

Lemma starting_verb_loop_raised (sentence_list : list string) (e : exn) :
  starting_verb_loop N sentence_list = Raised e ->
  e = IndexError
  /\ Exists (fun s => tokenize N s url_placeholder_default = []) sentence_list.
Proof.
  induction sentence_list as [|s l IH]; cbn [starting_verb_loop]; [discriminate|].
  destruct (pos_tag N (tokenize N s url_placeholder_default))
    as [|[w t] rest] eqn:E.
  - intros H. injection H as <-. split; [reflexivity|].
    apply Exists_cons_hd. apply (proj1 (pos_tag_nil_iff N _) E).
  - destruct (is_verb_tag t || String.eqb w "RT"); [discriminate|].
    intros H. destruct (IH H) as [-> Hex]. split; [reflexivity|].
    apply Exists_cons_tl, Hex.
Qed.

End StartingVerbProperties.

(** X4.  [starting_verb] returns true only for a sentence whose first tag
    is VB or VBP: the tokens are lower-cased before the comparison with the
    string RT, so that comparison never decides. *)
Theorem starting_verb_true_only_by_tag (N : nltk) (text : string) :
  starting_verb N text = Returned true ->
  Exists (fun s => exists w t rest,
            pos_tag N (tokenize N s url_placeholder_default) = (w, t) :: rest
            /\ is_verb_tag t = true
            /\ String.eqb w "RT" = false) (sent_tokenize N text).
Proof.
  intros H. apply starting_verb_loop_true in H.
  eapply List.Exists_impl; [|exact H].
  intros s (w & t & rest & E & Ht). exists w, t, rest.
  split; [exact E|]. split; [exact Ht|]. eapply first_word_never_RT, E.
Qed.

Lemma starting_verb_true_only_by_tag_witness :
  starting_verb sample_nltk "We are stranded. Send water" = Returned true
  /\ Exists (fun s => exists w t rest,
               pos_tag sample_nltk (tokenize sample_nltk s url_placeholder_default)
               = (w, t) :: rest
               /\ is_verb_tag t = true
               /\ String.eqb w "RT" = false)
            (sent_tokenize sample_nltk "We are stranded. Send water").
Proof.
  assert (H : starting_verb sample_nltk "We are stranded. Send water" = Returned true)
    by (vm_compute; reflexivity).
  split; [exact H|].
  exact (starting_verb_true_only_by_tag sample_nltk _ H).
Defined.

(** X5.  The loop stops at the first sentence that decides: after sentences
    that have tokens and do not start with a verb, a sentence that starts
    with a verb gives true and a sentence without tokens gives [IndexError],
    whatever the sentences after it are. *)
Theorem starting_verb_stops_at_first_hit (N : nltk) (text s : string)
    (pre rest : list string) :
  sent_tokenize N text = (pre ++ s :: rest)%list ->
  Forall (fun x => tokenize N x url_placeholder_default <> []
                   /\ first_token_check N x = false) pre ->
  (first_token_check N s = true -> starting_verb N text = Returned true)
  /\ (tokenize N s url_placeholder_default = [] ->
      starting_verb N text = Raised IndexError).
Proof.
  intros E Hpre. unfold starting_verb. rewrite E.
  rewrite (starting_verb_loop_prefix N pre (s :: rest) Hpre).
  cbn [starting_verb_loop]. split.
  - unfold first_token_check.
    destruct (pos_tag N (tokenize N s url_placeholder_default)) as [|[w t] tags];
      [discriminate|]. intros ->. reflexivity.
  - intros ->. reflexivity.
Qed.

Lemma starting_verb_stops_at_first_hit_witness :
  starting_verb sample_nltk "We wait. Send water. ?!" = Returned true.
Proof.
  apply (proj1 (starting_verb_stops_at_first_hit sample_nltk
                  "We wait. Send water. ?!" "Send water." ["We wait."] ["?!"]
                  ltac:(vm_compute; reflexivity)
                  ltac:(repeat constructor; vm_compute; discriminate))).
  vm_compute. reflexivity.
Defined.

(** X6.  The only exception [starting_verb] raises is [IndexError], and
    only when some sentence of the message has no token. *)
Theorem starting_verb_raises_only_IndexError (N : nltk) (text : string) (e : exn) :
  starting_verb N text = Raised e ->
  e = IndexError
  /\ Exists (fun s => tokenize N s url_placeholder_default = [])
            (sent_tokenize N text).
Proof. apply starting_verb_loop_raised. Qed.

Lemma starting_verb_raises_only_IndexError_witness :
  starting_verb sample_nltk "We wait. ?!" = Raised IndexError
  /\ Exists (fun s => tokenize sample_nltk s url_placeholder_default = [])
            (sent_tokenize sample_nltk "We wait. ?!").
Proof.
  assert (H : starting_verb sample_nltk "We wait. ?!" = Raised IndexError)
    by (vm_compute; reflexivity).
  split; [exact H|].
  exact (proj2 (starting_verb_raises_only_IndexError sample_nltk _ _ H)).
Defined.


(** ** [multioutput_fscore] and [evaluate_pipeline] *)
Section AggregateFacts.
Local Open Scope Q_scope.

Lemma Qlt_bool_true (s : Q) : Qlt_bool s 1 = true <-> s < 1.
Proof.
  unfold Qlt_bool. destruct (Qle_bool 1 s) eqn:E; simpl.
  - apply Qle_bool_iff in E. split; [discriminate|]. intros H. lra.
  - split; [|reflexivity]. intros _. apply Qnot_le_lt. intros H.
    apply Qle_bool_iff in H. congruence.
Qed.

Lemma filter_all_ones (l : list Q) :
  Forall (fun s => s == 1) l -> List.filter (fun s => Qlt_bool s 1) l = [].
Proof.
  induction 1 as [|s l Hs _ IH]; [reflexivity|]. cbn [List.filter].
  destruct (Qlt_bool s 1) eqn:E; [|exact IH].
  apply Qlt_bool_true in E. lra.
Qed.

Lemma Qprod_zero (l : list Q) (s : Q) : In s l -> s == 0 -> Qprod l == 0.
Proof.
  intros Hin Hs. induction l as [|a l IH]; [destruct Hin|].
  cbn [Qprod fold_right]. destruct Hin as [->|Hin].
  - rewrite Hs. ring.
  - fold (Qprod l). rewrite (IH Hin). ring.
Qed.

Lemma Qprod_unit (l : list Q) :
  Forall (fun s => 0 <= s /\ s < 1) l ->
  0 <= Qprod l /\ Qprod l <= 1 /\ (l <> [] -> Qprod l < 1).
Proof.
  induction 1 as [|a l [Ha0 Ha1] _ (IH0 & IH1 & _)].
  - cbn. split; [lra|]. split; [lra|]. intros H. contradiction.
  - cbn [Qprod fold_right]. fold (Qprod l).
    assert (H0 : 0 <= a * Qprod l) by (apply Qmult_le_0_compat; assumption).
    assert (H1 : a * Qprod l <= a) by nra.
    split; [exact H0|]. split; [lra|]. intros _. lra.
Qed.

Lemma column_scores_extra_columns (y_actual y_estimators : ndarray) (beta : Q) :
  List.length (Evaluator.rows y_actual) = List.length (Evaluator.rows y_estimators) ->
  (shape1 y_actual <= shape1 y_estimators)%nat ->
  column_scores y_actual y_estimators beta
  = Returned (per_column_scores y_actual y_estimators beta).
Proof.
  intros Hrows Hcols. unfold column_scores, per_column_scores.
  apply mapM_returns. intros c Hc. apply in_seq in Hc. unfold column_of.
  assert (H1 : (c <? shape1 y_actual)%nat = true) by (apply Nat.ltb_lt; lia).
  assert (H2 : (c <? shape1 y_estimators)%nat = true) by (apply Nat.ltb_lt; lia).
  rewrite H1, H2. cbn [bind]. unfold fbeta_score, column_values.
  rewrite !length_map, Hrows, Nat.eqb_refl. reflexivity.
Qed.

Lemma column_scores_unit (y_actual y_estimators : ndarray) (beta : Q)
    (scores : list Q) :
  column_scores y_actual y_estimators beta = Returned scores ->
  Forall (fun s => 0 <= s /\ s <= 1) scores.
Proof.
  unfold column_scores. intros H. apply mapM_inv in H.
  induction H as [|c s cs ss Hc _ IH]; constructor; [|exact IH].
  destruct (column_of y_actual c) as [t|]; cbn [bind] in Hc; [|discriminate].
  destruct (column_of y_estimators c) as [p|]; cbn [bind] in Hc; [|discriminate].
  unfold fbeta_score in Hc.
  destruct (negb _); [discriminate|]. injection Hc as <-.
  apply weighted_fscore_unit.
Qed.

End AggregateFacts.

(** X8.  Whenever the per-column loop returns, every score lies between 0
    and 1, and the aggregate is either [nan] or the root, of an order
    between 1 and the number of columns, of a number that is at least 0 and
    below 1: the function never reports a perfect 1. *)
Theorem multioutput_fscore_range (y_actual y_estimators : ndarray) (beta : Q)
    (v : float_value) :
  multioutput_fscore y_actual y_estimators beta = Returned v ->
  (exists scores,
     column_scores y_actual y_estimators beta = Returned scores
     /\ Forall (fun s => 0 <= s /\ s <= 1)%Q scores)
  /\ (v = nan
      \/ exists n q, v = nth_root n q
                     /\ (1 <= n <= shape1 y_actual)%nat
                     /\ (0 <= q)%Q /\ (q < 1)%Q).
Proof.
  unfold multioutput_fscore.
  destruct (column_scores y_actual y_estimators beta) as [scores|e] eqn:Hs;
    cbn [bind]; [|discriminate].
  intros H. injection H as <-.
  pose proof (column_scores_unit _ _ _ _ Hs) as Hunit.
  split; [exists scores; split; [reflexivity|exact Hunit]|].
  assert (Hlen : List.length scores = shape1 y_actual).
  { unfold column_scores in Hs. apply mapM_length in Hs.
    rewrite Hs. apply length_seq. }
  set (kept := List.filter (fun s => Qlt_bool s 1) scores).
  assert (Hkept : Forall (fun s => 0 <= s /\ s < 1)%Q kept).
  { apply List.Forall_forall. intros s Hin. apply List.filter_In in Hin.
    destruct Hin as [Hin Hlt]. rewrite List.Forall_forall in Hunit.
    split; [apply (Hunit s Hin)|apply Qlt_bool_true, Hlt]. }
  destruct kept as [|s0 kept'] eqn:E; [left; reflexivity|right].
  exists (List.length (s0 :: kept')), (Qprod (s0 :: kept')).
  split; [reflexivity|].
  destruct (Qprod_unit _ Hkept) as (H0 & _ & H1). split.
  - split; [simpl; lia|]. rewrite <- Hlen, <- E. apply List.filter_length_le.
  - split; [exact H0|apply H1; discriminate].
Qed.

Lemma multioutput_fscore_range_witness :
  exists v, multioutput_fscore sample_actual sample_estimated 1 = Returned v
            /\ (v = nan \/ exists n q, v = nth_root n q
                                       /\ (1 <= n <= shape1 sample_actual)%nat
                                       /\ (0 <= q)%Q /\ (q < 1)%Q).
Proof.
  eexists. split; [vm_compute; reflexivity|].
  exact (proj2 (multioutput_fscore_range sample_actual sample_estimated 1 _
                  ltac:(vm_compute; reflexivity))).
Defined.

(** X9.  A single column with score 0 makes the aggregate a root of 0. *)
Theorem multioutput_fscore_zero_column (y_actual y_estimators : ndarray)
    (beta : Q) (scores : list Q) (s : Q) :
  column_scores y_actual y_estimators beta = Returned scores ->
  In s scores -> (s == 0)%Q ->
  exists n q, multioutput_fscore y_actual y_estimators beta
              = Returned (nth_root n q)
              /\ (1 <= n)%nat /\ (q == 0)%Q.
Proof.
  intros Hs Hin Hz. unfold multioutput_fscore. rewrite Hs. cbn [bind].
  set (kept := List.filter (fun s => Qlt_bool s 1) scores).
  assert (Hk : In s kept).
  { apply List.filter_In. split; [exact Hin|]. apply Qlt_bool_true. lra. }
  destruct kept as [|s0 kept'] eqn:E; [destruct Hk|].
  exists (List.length (s0 :: kept')), (Qprod (s0 :: kept')).
  split; [reflexivity|]. split; [simpl; lia|].
  exact (Qprod_zero _ s Hk Hz).
Qed.

(** X10.  When [y_estimators] has fewer columns than [y_actual] (and as
    many rows) the loop ends in [IndexError]; when the two arrays have
    columns and differ in the number of rows it ends in [ValueError] at the
    first column. *)
Theorem multioutput_fscore_shape_errors (y_actual y_estimators : ndarray)
    (beta : Q) :
  (List.length (Evaluator.rows y_actual) = List.length (Evaluator.rows y_estimators) ->
   (shape1 y_estimators < shape1 y_actual)%nat ->
   multioutput_fscore y_actual y_estimators beta = Raised IndexError)
  /\ (List.length (Evaluator.rows y_actual)
        <> List.length (Evaluator.rows y_estimators) ->
      (0 < shape1 y_actual)%nat -> (0 < shape1 y_estimators)%nat ->
      multioutput_fscore y_actual y_estimators beta = Raised ValueError).
Proof.
  split.
  - intros Hrows Hcols. unfold multioutput_fscore.
    assert (H : column_scores y_actual y_estimators beta = Raised IndexError).
    { unfold column_scores. apply mapM_raises.
      - intros c e Hc. apply in_seq in Hc. unfold column_of.
        assert (H1 : (c <? shape1 y_actual)%nat = true) by (apply Nat.ltb_lt; lia).
        rewrite H1. cbn [bind].
        destruct (c <? shape1 y_estimators)%nat; cbn [bind]; [|congruence].
        unfold fbeta_score, column_values.
        rewrite !length_map, Hrows, Nat.eqb_refl. discriminate.
      - exists (shape1 y_estimators). split; [apply in_seq; lia|].
        unfold column_of.
        assert (H1 : (shape1 y_estimators <? shape1 y_actual)%nat = true)
          by (apply Nat.ltb_lt; lia).
        rewrite H1, Nat.ltb_irrefl. reflexivity. }
    rewrite H. reflexivity.
  - intros Hrows Ha He. unfold multioutput_fscore, column_scores.
    destruct (shape1 y_actual) as [|k] eqn:Ek; [lia|].
    cbn [seq mapM].
    assert (Ca : column_of y_actual 0 = Returned (column_values y_actual 0))
      by (unfold column_of; rewrite Ek; reflexivity).
    assert (Ce : column_of y_estimators 0 = Returned (column_values y_estimators 0))
      by (unfold column_of; destruct (shape1 y_estimators); [lia|reflexivity]).
    rewrite Ca, Ce. cbn [bind].
    unfold fbeta_score, column_values. rewrite !length_map.
    apply Nat.eqb_neq in Hrows. rewrite Hrows. reflexivity.
Qed.

(** X11.  Columns of [y_estimators] beyond the columns of [y_actual] are
    never read: with as many rows and at least as many columns the result
    is the one for the first columns alone. *)
Theorem multioutput_fscore_ignores_extra_columns
    (y_actual y_estimators : ndarray) (beta : Q) :
  List.length (Evaluator.rows y_actual) = List.length (Evaluator.rows y_estimators) ->
  (shape1 y_actual <= shape1 y_estimators)%nat ->
  multioutput_fscore y_actual y_estimators beta
  = multioutput_fscore y_actual
      {| shape1 := shape1 y_actual; Evaluator.rows := Evaluator.rows y_estimators |}
      beta
  /\ multioutput_fscore y_actual y_estimators beta
     = Returned (gmean (List.filter (fun s => Qlt_bool s 1)
                          (per_column_scores y_actual y_estimators beta))).
Proof.
  intros Hrows Hcols. unfold multioutput_fscore.
  rewrite (column_scores_extra_columns _ _ beta Hrows Hcols).
  rewrite (column_scores_extra_columns y_actual
             {| shape1 := shape1 y_actual;
                Evaluator.rows := Evaluator.rows y_estimators |} beta Hrows (le_n _)).
  split; reflexivity.
Qed.

Lemma fscore_of_identical_arrays (y : ndarray) (beta : Q) :
  Evaluator.rows y <> [] ->
  multioutput_fscore y y beta = Returned nan.
Proof.
  intros Hrows. unfold multioutput_fscore.
  rewrite (column_scores_extra_columns y y beta eq_refl (le_n _)). cbn [bind].
  rewrite filter_all_ones; [reflexivity|].
  apply identical_arrays_all_perfect, Hrows.
Qed.

(** X12.  Predictions that agree with the labels in every entry (at least
    one row) give [nan], not 1. *)
Theorem multioutput_fscore_perfect_is_nan (y : ndarray) (beta : Q) :
  Evaluator.rows y <> [] ->
  multioutput_fscore y y beta = Returned nan.
Proof. apply fscore_of_identical_arrays. Qed.

Lemma multioutput_fscore_zero_column_witness :
  exists n q, multioutput_fscore wrong_actual wrong_estimated 1
              = Returned (nth_root n q)
              /\ (1 <= n)%nat /\ (q == 0)%Q.
Proof.
  apply (multioutput_fscore_zero_column wrong_actual wrong_estimated 1
           [0 # 8] (0 # 8))%Q.
  - vm_compute. reflexivity.
  - left. reflexivity.
  - reflexivity.
Defined.

Lemma multioutput_fscore_shape_errors_witness :
  multioutput_fscore sample_actual narrow_actual 1 = Raised IndexError
  /\ multioutput_fscore sample_actual short_estimated 1 = Raised ValueError.
Proof.
  split.
  - apply (proj1 (multioutput_fscore_shape_errors sample_actual narrow_actual 1)).
    + reflexivity.
    + simpl. lia.
  - apply (proj2 (multioutput_fscore_shape_errors sample_actual short_estimated 1)).
    + simpl. lia.
    + simpl. lia.
    + simpl. lia.
Defined.

Lemma multioutput_fscore_ignores_extra_columns_witness :
  multioutput_fscore narrow_actual sample_estimated 1
  = multioutput_fscore narrow_actual
      {| shape1 := 2; Evaluator.rows := Evaluator.rows sample_estimated |} 1.
Proof.
  apply (proj1 (multioutput_fscore_ignores_extra_columns
                  narrow_actual sample_estimated 1 eq_refl ltac:(simpl; lia))).
Defined.

Lemma multioutput_fscore_perfect_is_nan_witness :
  multioutput_fscore sample_actual sample_actual 1 = Returned nan.
Proof.
  apply multioutput_fscore_perfect_is_nan. simpl. discriminate.
Defined.

Import Report.

Section AccuracyFacts.
Local Open Scope Q_scope.

Lemma Qsum_bounds (l : list Q) :
  Forall (fun q => 0 <= q /\ q <= 1) l ->
  0 <= Qsum l /\ Qsum l <= inject_Z (Z.of_nat (List.length l)).
Proof.
  induction 1 as [|q l [H0 H1] _ [IH0 IH1]].
  - split; apply Qle_refl.
  - cbn [Qsum fold_right List.length]. fold (Qsum l).
    rewrite Nat2Z.inj_succ, <- Z.add_1_r, inject_Z_plus.
    change (inject_Z 1) with 1. split; lra.
Qed.

Lemma Qsum_ones (l : list Q) :
  Forall (fun q => q == 1) l -> Qsum l == inject_Z (Z.of_nat (List.length l)).
Proof.
  induction 1 as [|q l Hq _ IH].
  - reflexivity.
  - cbn [Qsum fold_right List.length]. fold (Qsum l).
    rewrite Nat2Z.inj_succ, <- Z.add_1_r, inject_Z_plus, IH, Hq.
    change (inject_Z 1) with 1. ring.
Qed.

Lemma length_positive {X : Type} (l : list X) :
  l <> [] -> 0 < inject_Z (Z.of_nat (List.length l)).
Proof.
  intros H. change 0 with (inject_Z 0). rewrite <- Zlt_Qlt.
  destruct l; [contradiction|simpl; lia].
Qed.

Lemma ratio_unit (c n : Q) :
  0 <= c -> c <= n -> 0 < n -> 0 <= c / n /\ c / n <= 1.
Proof.
  intros H0 H1 Hpos. split.
  - apply Qle_shift_div_l; [exact Hpos|lra].
  - apply Qle_shift_div_r; [exact Hpos|lra].
Qed.

Lemma bool_mean_unit (l : list bool) (q : Q) :
  bool_mean l = Some q -> 0 <= q /\ q <= 1.
Proof.
  unfold bool_mean. destruct l as [|b l]; [discriminate|].
  intros H. injection H as <-.
  apply ratio_unit.
  - apply count_where_nonneg.
  - unfold count_where. rewrite <- Zle_Qle. apply Nat2Z.inj_le.
    apply List.filter_length_le.
  - apply (length_positive (b :: l)). discriminate.
Qed.

Lemma bool_mean_all_true (l : list bool) :
  l <> [] -> Forall (fun b => b = true) l ->
  exists q, bool_mean l = Some q /\ q == 1.
Proof.
  intros Hne Hall. unfold bool_mean. destruct l as [|b l]; [contradiction|].
  eexists. split; [reflexivity|].
  assert (E : List.filter (fun x => x) (b :: l) = b :: l).
  { clear Hne. induction Hall as [|x xs -> _ IH]; [reflexivity|].
    cbn [List.filter]. rewrite IH. reflexivity. }
  unfold count_where. rewrite E.
  pose proof (length_positive (b :: l) ltac:(discriminate)) as Hpos.
  field. lra.
Qed.

Lemma present_forall (P : Q -> Prop) (l : list (option Q)) :
  Forall (fun o => forall q, o = Some q -> P q) l -> Forall P (present l).
Proof.
  induction 1 as [|o l Ho _ IH]; [constructor|].
  destruct o as [q|]; cbn [present]; [constructor; auto|exact IH].
Qed.

Lemma series_mean_unit (l : list (option Q)) (q : Q) :
  Forall (fun o => forall x, o = Some x -> 0 <= x /\ x <= 1) l ->
  series_mean l = Some q -> 0 <= q /\ q <= 1.
Proof.
  intros Hall. apply present_forall in Hall. unfold series_mean.
  destruct (present l) as [|x xs] eqn:E; [discriminate|].
  intros H. injection H as <-.
  destruct (Qsum_bounds _ Hall) as [H0 H1].
  apply ratio_unit; [exact H0|exact H1|].
  apply (length_positive (x :: xs)). discriminate.
Qed.

Lemma in_combine_same {X : Type} (l : list X) (a b : X) :
  In (a, b) (combine l l) -> a = b.
Proof.
  induction l as [|x l IH]; [intros []|]. simpl.
  intros [H|H]; [congruence|exact (IH H)].
Qed.

Lemma eq_column_all_true (y : ndarray) (eq : ndarray) (c : nat) :
  elementwise_eq y y = Returned eq -> (c < shape1 y)%nat ->
  Forall (fun b => b = true) (column_values eq c)
  /\ List.length (column_values eq c) = List.length (Evaluator.rows y)
  /\ shape1 eq = shape1 y.
Proof.
  unfold elementwise_eq. rewrite !Nat.eqb_refl. cbn [andb].
  intros H Hc. injection H as <-. cbn [shape1 Evaluator.rows]. split; [|split].
  - unfold column_values. cbn [Evaluator.rows]. rewrite List.map_map.
    apply List.Forall_forall. intros b Hb. apply in_map_iff in Hb.
    destruct Hb as ([r1 r2] & <- & Hin). cbn [fst snd].
    apply in_combine_same in Hin. subst r2.
    rewrite (nth_map_lt _ _ c false 0%nat) by (rewrite length_seq; exact Hc).
    rewrite seq_nth by exact Hc. cbn [Nat.add]. apply Bool.eqb_reflx.
  - unfold column_values. cbn [Evaluator.rows].
    rewrite !List.length_map, List.length_combine. lia.
  - reflexivity.
Qed.

End AccuracyFacts.

(** X13.  The accuracy [evaluate_pipeline] prints is a number between 0
    and 1 whenever it is a number. *)
Theorem overall_accuracy_unit (y_pred y_test : ndarray) (q : Q) :
  overall_accuracy y_pred y_test = Returned (Some q) ->
  (0 <= q)%Q /\ (q <= 1)%Q.
Proof.
  unfold overall_accuracy.
  destruct (elementwise_eq y_pred y_test) as [eq|e]; cbn [bind]; [|discriminate].
  intros H. injection H as H. revert H. apply series_mean_unit.
  apply List.Forall_forall. intros o Ho x ->. apply in_map_iff in Ho.
  destruct Ho as (c & Hc & _). exact (bool_mean_unit _ _ Hc).
Qed.

Lemma overall_accuracy_unit_witness :
  exists q, overall_accuracy sample_estimated sample_actual = Returned (Some q)
            /\ (0 <= q)%Q /\ (q <= 1)%Q.
Proof.
  eexists. split; [vm_compute; reflexivity|].
  exact (overall_accuracy_unit sample_estimated sample_actual _
           ltac:(vm_compute; reflexivity)).
Defined.

(** X14.  For predictions that agree with the labels in every entry (at
    least one row and one column) [evaluate_pipeline] reports the accuracy
    1 together with the score [nan]. *)
Theorem evaluate_pipeline_perfect (y : ndarray) :
  Evaluator.rows y <> [] -> (0 < shape1 y)%nat ->
  exists q, evaluate_pipeline y y = Returned (nan, Some q) /\ (q == 1)%Q.
Proof.
  intros Hrows Hcols. unfold evaluate_pipeline.
  rewrite (fscore_of_identical_arrays y 1 Hrows). cbn [bind].
  unfold overall_accuracy.
  destruct (elementwise_eq y y) as [eq|e] eqn:E.
  2:{ unfold elementwise_eq in E. rewrite !Nat.eqb_refl in E. discriminate. }
  cbn [bind].
  assert (Hmeans : Forall (fun o => exists q, o = Some q /\ (q == 1)%Q)
             (List.map (fun c => bool_mean (column_values eq c))
                       (seq 0 (shape1 eq)))).
  { apply List.Forall_forall. intros o Ho. apply in_map_iff in Ho.
    destruct Ho as (c & <- & Hc). apply in_seq in Hc.
    destruct (eq_column_all_true y eq c E) as (Hall & Hlen & Hs);
      [rewrite <- (proj2 (proj2 (eq_column_all_true y eq 0 E Hcols))); lia|].
    apply bool_mean_all_true; [|exact Hall].
    intros Hnil. rewrite Hnil in Hlen. simpl in Hlen.
    destruct (Evaluator.rows y); [contradiction|discriminate]. }
  assert (Hs : shape1 eq = shape1 y)
    by exact (proj2 (proj2 (eq_column_all_true y eq 0 E Hcols))).
  set (means := List.map _ (seq 0 (shape1 eq))) in *.
  assert (Hne : means <> []).
  { unfold means. rewrite Hs. destruct (shape1 y); [lia|discriminate]. }
  clearbody means. unfold series_mean.
  assert (Hp : Forall (fun q => q == 1)%Q (present means) /\ present means <> []).
  { clear Hs E. induction Hmeans as [|o l (q & -> & Hq) _ IH]; [contradiction|].
    cbn [present]. split; [|discriminate]. constructor; [exact Hq|].
    destruct l as [|o' l']; [constructor|]. apply IH. discriminate. }
  destruct Hp as [Hp Hpne].
  destruct (present means) as [|x xs] eqn:Ep; [contradiction|].
  eexists. split; [reflexivity|].
  rewrite (Qsum_ones _ Hp).
  pose proof (length_positive (x :: xs) ltac:(discriminate)) as Hpos.
  field. lra.
Qed.

Lemma evaluate_pipeline_perfect_witness :
  exists q, evaluate_pipeline sample_actual sample_actual = Returned (nan, Some q)
            /\ (q == 1)%Q.
Proof.
  apply evaluate_pipeline_perfect; [simpl; discriminate|simpl; lia].
Defined.

(** ** [clean_data]: schema, errors and duplicates *)
Section SchemaFacts.

Lemma drop_label_not_in (name : string) (labels : list string) :
  ~ In name (drop_label name labels).
Proof.
  unfold drop_label. intros H. apply List.filter_In in H. destruct H as [_ H].
  rewrite String.eqb_refl in H. discriminate.
Qed.

Lemma count_label_zero (name : string) (labels : list string) :
  count_label name labels = 0%nat <-> ~ In name labels.
Proof.
  unfold count_label. induction labels as [|l labels IH]; simpl.
  - split; [intros _ []|reflexivity].
  - destruct (String.eqb name l) eqn:E; simpl.
    + apply String.eqb_eq in E. subst. split; [discriminate|].
      intros H. exfalso. apply H. left. reflexivity.
    + apply String.eqb_neq in E. rewrite IH. split.
      * intros H [H1|H1]; [congruence|contradiction].
      * intros H H1. apply H. right. exact H1.
Qed.

Lemma ddr_in (seen l : list (list cell)) (r : list cell) :
  In r (drop_duplicates_rows seen l) <-> In r l /\ ~ In r seen.
Proof.
  split; [apply drop_duplicates_rows_spec|].
  revert seen. induction l as [|x l IH]; intros seen [Hin Hn]; [destruct Hin|].
  cbn [drop_duplicates_rows].
  destruct (existsb (row_eqb x) seen) eqn:E.
  - apply existsb_row_eqb in E. destruct Hin as [->|Hin]; [contradiction|].
    apply IH. split; assumption.
  - destruct (row_eqb r x) eqn:Er;
      [apply row_eqb_eq in Er; subst x
      |assert (Hne : r <> x)
         by (intros ->; rewrite row_eqb_refl in Er; discriminate)].
    + left. reflexivity.
    + right. destruct Hin as [Hx|Hin]; [congruence|].
      apply IH. split; [exact Hin|]. intros [H|H]; [congruence|contradiction].
Qed.

Lemma ddr_fixed (seen l : list (list cell)) :
  List.NoDup l -> (forall r, In r l -> ~ In r seen) ->
  drop_duplicates_rows seen l = l.
Proof.
  intros Hnd. revert seen. induction Hnd as [|x l Hx Hnd IH]; intros seen Hs;
    [reflexivity|].
  cbn [drop_duplicates_rows].
  destruct (existsb (row_eqb x) seen) eqn:E.
  - apply existsb_row_eqb in E. exfalso. apply (Hs x); [left; reflexivity|exact E].
  - f_equal. apply IH. intros r Hr [<-|H]; [contradiction|].
    apply (Hs r); [right; exact Hr|exact H].
Qed.

End SchemaFacts.

(** X15.  The frame [clean_data] returns has no column labelled
    [child_alone]; it returns only when the split categories (or the input)
    had such a column. *)
Theorem clean_data_drops_child_alone (df out : frame) :
  clean_data df = Returned out ->
  ~ In "child_alone" (columns out)
  /\ exists mid,
       clean_data_dedup df = Returned mid
       /\ In "child_alone" (columns mid)
       /\ columns out = drop_label "child_alone" (columns mid).
Proof.
  unfold clean_data. intros H.
  destruct (clean_data_dedup df) as [mid|e]; cbn [bind] in H; [|discriminate].
  unfold drop_column in H.
  destruct (count_label "child_alone" (columns mid) =? 0)%nat eqn:E;
    [discriminate|].
  injection H as <-. cbn [columns]. split; [apply drop_label_not_in|].
  exists mid. split; [reflexivity|]. split; [|reflexivity].
  apply Nat.eqb_neq in E.
  destruct (in_dec string_dec "child_alone" (columns mid)) as [Hin|Hn];
    [exact Hin|]. apply count_label_zero in Hn. contradiction.
Qed.

Lemma clean_data_drops_child_alone_witness :
  exists out, clean_data sample_messages = Returned out
              /\ ~ In "child_alone" (columns out).
Proof.
  eexists. split; [vm_compute; reflexivity|].
  exact (proj1 (clean_data_drops_child_alone sample_messages _
                  ltac:(vm_compute; reflexivity))).
Defined.



Section RaggedRows.

Lemma colname_raises_AttributeError (row : list (option string)) :
  In None row -> mapM colname row = Raised AttributeError.
Proof.
  intros H. apply mapM_raises.
  - intros [s|] e _; simpl; congruence.
  - exists None. split; [exact H|reflexivity].
Qed.

End RaggedRows.

(** X17.  The first row fixes the schema.  When the first row of the split
    table has a missing field (its string has fewer fields than the string
    of another row, or is missing) [clean_data] raises [AttributeError];
    when the first row names every column once and a later row has a
    missing field, it raises [ValueError]. *)
Theorem clean_data_ragged_rows (df : frame) (row : list (option string))
    (rest : list (list (option string))) :
  count_label "categories" (columns df) = 1%nat ->
  categories_of df = row :: rest ->
  (In None row -> clean_data df = Raised AttributeError)
  /\ (forall names r,
        mapM colname row = Returned names -> unique_labels names ->
        In r rest -> In None r ->
        clean_data df = Raised ValueError).
Proof.
  intros Hc E. split.
  - intros Hnone. unfold clean_data, clean_data_dedup.
    rewrite Hc. cbn [bind]. rewrite E. cbn [bind].
    rewrite (colname_raises_AttributeError row Hnone). reflexivity.
  - intros names r Hnames Hu Hr Hnone. unfold clean_data.
    rewrite (clean_data_dedup_raises df row rest names r None Hc E Hnames Hu);
      [reflexivity| |exact Hnone|reflexivity].
    rewrite E. right. exact Hr.
Qed.

Lemma clean_data_ragged_rows_witness :
  clean_data long_second_row = Raised AttributeError
  /\ clean_data short_second_row = Raised ValueError.
Proof.
  split.
  - apply (proj1 (clean_data_ragged_rows long_second_row
                    [Some "related-1"; Some "child_alone-0"; None]
                    [[Some "related-1"; Some "child_alone-0"; Some "offer-0"]]
                    ltac:(vm_compute; reflexivity) ltac:(vm_compute; reflexivity))).
    right. right. left. reflexivity.
  - apply (proj2 (clean_data_ragged_rows short_second_row
                    [Some "related-1"; Some "child_alone-0"]
                    [[Some "related-1"; None]]
                    ltac:(vm_compute; reflexivity) ltac:(vm_compute; reflexivity))
             ["related"; "child_alone"] [Some "related-1"; None]).
    + vm_compute. reflexivity.
    + intros j Hj. simpl in Hj. destruct j as [|[|j]]; try reflexivity. lia.
    + left. reflexivity.
    + right. left. reflexivity.
Defined.

(** X18.  In every row of the frame after [drop_duplicates] the cells of
    an input row (without its [categories] cell) are followed by integers
    between 0 and 9 that are never 2. *)
Theorem clean_data_cells_never_2 (df mid : frame) (row : list cell) :
  clean_data_dedup df = Returned mid -> In row (rows mid) ->
  exists r0 zs,
    In r0 (rows df)
    /\ row = (drop_cells "categories" (columns df) r0 ++ List.map Int zs)%list
    /\ Forall (fun z => (0 <= z <= 9)%Z /\ z <> 2%Z) zs.
Proof.
  intros Hmid Hrow.
  destruct (clean_data_dedup_inv df mid Hmid)
    as (row0 & rest & names & _ & _ & _ & _ & Hok & ->).
  cbn [rows] in Hrow. apply drop_duplicates_rows_spec in Hrow.
  destruct Hrow as [Hrow _]. unfold joined_rows in Hrow.
  apply in_map_iff in Hrow. destruct Hrow as ([r0 fields] & <- & Hin).
  cbn [fst snd].
  exists r0, (List.map (fun f => replace_2_by_1 (digit_of_field f)) fields).
  split; [eapply in_combine_l, Hin|]. split.
  - rewrite List.map_map. reflexivity.
  - apply in_combine_r in Hin. unfold all_fields_ok in Hok.
    rewrite List.Forall_forall in Hok. specialize (Hok fields Hin).
    apply List.Forall_map. eapply List.Forall_impl; [|exact Hok].
    intros f Hf. cbv beta in Hf. apply field_ok_digit_range in Hf.
    unfold replace_2_by_1. destruct (digit_of_field f =? 2)%Z eqn:E.
    + split; [lia|discriminate].
    + apply Z.eqb_neq in E. split; [lia|exact E].
Qed.

Lemma clean_data_cells_never_2_witness :
  exists r0 zs,
    In r0 (rows sample_out_of_range)
    /\ [Int 1; Str "Need water"; Int 1; Int 0; Int 1]
       = (drop_cells "categories" (columns sample_out_of_range) r0
          ++ List.map Int zs)%list
    /\ Forall (fun z => (0 <= z <= 9)%Z /\ z <> 2%Z) zs.
Proof.
  apply (clean_data_cells_never_2 sample_out_of_range
           {| columns := ["id"; "message"; "related"; "child_alone"; "aid_related"];
              rows := [[Int 1; Str "Need water"; Int 1; Int 0; Int 1];
                       [Int 2; Str "Storm coming"; Int 3; Int 0; Int 0]] |}).
  - vm_compute. reflexivity.
  - left. reflexivity.
Defined.

(** X19.  [drop_duplicates] keeps exactly the rows of the frame, each
    once, removes nothing else and changes nothing when applied again. *)
Theorem drop_duplicates_properties (df : frame) :
  (forall r, In r (rows (drop_duplicates df)) <-> In r (rows df))
  /\ List.NoDup (rows (drop_duplicates df))
  /\ (List.length (rows (drop_duplicates df)) <= List.length (rows df))%nat
  /\ drop_duplicates (drop_duplicates df) = drop_duplicates df
  /\ (List.NoDup (rows df) -> rows (drop_duplicates df) = rows df).
Proof.
  unfold drop_duplicates. cbn [rows columns].
  destruct (drop_duplicates_rows_spec [] (rows df)) as [Hnd _].
  split; [|split; [exact Hnd|split; [apply drop_duplicates_rows_length|split]]].
  - intros r. rewrite ddr_in. split; [intros [H _]; exact H|].
    intros H. split; [exact H|intros []].
  - f_equal. apply ddr_fixed; [exact Hnd|]. intros r _ [].
  - intros H. apply ddr_fixed; [exact H|]. intros r _ [].
Qed.

(** X20.  [clean_data] keeps frames rectangular: when every input row has
    one cell per column, so has every output row. *)
Theorem clean_data_well_formed (df out : frame) :
  well_formed df -> clean_data df = Returned out -> well_formed out.
Proof.
  intros Hwf H. unfold clean_data in H.
  destruct (clean_data_dedup df) as [mid|e] eqn:Hmid; cbn [bind] in H;
    [|discriminate].
  destruct (clean_data_dedup_inv df mid Hmid)
    as (row & rest & names & _ & E & Hnames & _ & _ & ->).
  unfold drop_column in H.
  destruct (count_label "child_alone" _ =? 0)%nat; [discriminate|].
  injection H as <-. unfold well_formed. cbn [rows columns].
  apply List.Forall_forall. intros r Hr. apply in_map_iff in Hr.
  destruct Hr as (r0 & <- & Hr0). apply drop_cells_length.
  apply drop_duplicates_rows_spec in Hr0. destruct Hr0 as [Hr0 _].
  eapply joined_row_length; eauto.
Qed.

Lemma clean_data_well_formed_witness :
  exists out, clean_data sample_messages = Returned out /\ well_formed out.
Proof.
  eexists. split; [vm_compute; reflexivity|].
  apply (clean_data_well_formed sample_messages).
  - repeat constructor.
  - vm_compute. reflexivity.
Defined.

(** ** The database: [save_data] and [load_data_from_db] *)
Section DatabaseFacts.

Lemma append_inj_r (p a b : string) : p +:+ a = p +:+ b -> a = b.
Proof.
  induction p as [|c p IH]; [exact (fun H => H)|].
  change (String c (p +:+ a) = String c (p +:+ b) -> a = b).
  intros H. injection H as H. exact (IH H).
Qed.

Lemma format_sqlite_url_inj (f1 f2 : string) :
  format_sqlite_url f1 = format_sqlite_url f2 -> f1 = f2.
Proof. apply append_inj_r. Qed.

End DatabaseFacts.

(** X21.  [save_data] replaces the table: after two saves to the same file
    the database is the one the second save alone would give, and the
    loader gets the second frame. *)
Theorem save_data_replaces (df1 df2 : frame) (database_filename : string)
    (db : gmap string (gmap string frame)) :
  save_data df2 database_filename (save_data df1 database_filename db)
  = save_data df2 database_filename db
  /\ load_table database_filename
       (save_data df2 database_filename (save_data df1 database_filename db))
     = Returned df2.
Proof.
  split; [|apply load_table_after_save].
  unfold save_data, to_sql, create_engine.
  rewrite lookup_insert_eq. cbn [default from_option id].
  rewrite insert_insert_eq, insert_insert_eq. reflexivity.
Qed.

(** X22.  [save_data] touches one table of one database: the tables of
    other database files and the other tables of the same file read as
    before. *)
Theorem save_data_leaves_the_rest (df : frame) (database_filename : string)
    (db : gmap string (gmap string frame)) :
  (forall other, other <> database_filename ->
     load_table other (save_data df database_filename db) = load_table other db)
  /\ (forall name, name <> "DisasterResponse_table" ->
       read_sql_table name (format_sqlite_url database_filename)
         (save_data df database_filename db)
       = read_sql_table name (format_sqlite_url database_filename) db).
Proof.
  split.
  - intros other Hne. unfold load_table, read_sql_table, save_data, to_sql,
      create_engine.
    rewrite lookup_insert_ne; [reflexivity|].
    intros H. apply Hne. symmetry. exact (format_sqlite_url_inj _ _ H).
  - intros name Hne. unfold read_sql_table. rewrite save_data_tables.
    rewrite lookup_insert_ne by congruence.
    destruct (db !! format_sqlite_url database_filename) as [tables|];
      cbn [default]; [reflexivity|]. rewrite lookup_empty. reflexivity.
Qed.



(** ** [load_data] and [main] of [process_data.py] *)
Import Etl.

Section MergeFacts.
Variable key : string.
Variables left right : frame.

Lemma merge_left_rows (m : frame) :
  merge_left key left right = Returned m ->
  rows m = flat_map (merged_rows_of key left right) (rows left).
Proof.
  unfold merge_left.
  destruct (_ || _)%bool; [discriminate|].
  destruct (_ || _)%bool; [discriminate|].
  intros H. injection H as <-. reflexivity.
Qed.

Lemma merged_rows_of_shape (l : list cell) :
  (1 <= List.length (merged_rows_of key left right l))%nat
  /\ Forall (fun row => exists tail, row = (l ++ tail)%list) (merged_rows_of key left right l).
Proof.
  unfold merged_rows_of.
  destruct (List.filter _ (rows right)) as [|r ms].
  - split; [simpl; lia|]. repeat constructor. eauto.
  - split; [simpl; lia|]. apply List.Forall_forall. intros row Hrow.
    apply in_map_iff in Hrow. destruct Hrow as (x & <- & _). eauto.
Qed.

Lemma filter_key_at_most_one {X : Type} (f : X -> cell) (k : cell) (l : list X) :
  List.NoDup (List.map f l) ->
  (List.length (List.filter (fun r => cell_eqb (f r) k) l) <= 1)%nat.
Proof.
  induction l as [|a l IH]; intros Hnd; [simpl; lia|].
  cbn [List.map] in Hnd. apply List.NoDup_cons_iff in Hnd.
  destruct Hnd as [Hnotin Hnd]. cbn [List.filter].
  destruct (cell_eqb (f a) k) eqn:E; [|apply IH, Hnd].
  apply cell_eqb_eq in E. subst k.
  assert (Hnone : List.filter (fun r => cell_eqb (f r) (f a)) l = []).
  { destruct (List.filter _ l) as [|x xs] eqn:Ef; [reflexivity|].
    assert (Hx : In x (List.filter (fun r => cell_eqb (f r) (f a)) l))
      by (rewrite Ef; left; reflexivity).
    apply List.filter_In in Hx. destruct Hx as [Hx Hk].
    apply cell_eqb_eq in Hk. exfalso. apply Hnotin. rewrite <- Hk.
    apply in_map, Hx. }
  rewrite Hnone. simpl. lia.
Qed.

Lemma merged_rows_of_unique (l : list cell) :
  List.NoDup (List.map (key_of key (columns right)) (rows right)) ->
  List.length (merged_rows_of key left right l) = 1%nat.
Proof.
  intros Hnd. unfold merged_rows_of.
  pose proof (filter_key_at_most_one (key_of key (columns right))
                (key_of key (columns left) l) (rows right) Hnd) as Hle.
  destruct (List.filter _ (rows right)) as [|r [|r' ms]]; simpl in *;
    try reflexivity. lia.
Qed.

Lemma flat_map_length_ge {X Y : Type} (g : X -> list Y) (l : list X) :
  (forall x, (1 <= List.length (g x))%nat) ->
  (List.length l <= List.length (flat_map g l))%nat.
Proof.
  intros Hg. induction l as [|x l IH]; [simpl; lia|].
  cbn [flat_map]. rewrite List.length_app. specialize (Hg x). simpl. lia.
Qed.

Lemma flat_map_length_eq {X Y : Type} (g : X -> list Y) (l : list X) :
  (forall x, List.length (g x) = 1%nat) ->
  List.length (flat_map g l) = List.length l.
Proof.
  intros Hg. induction l as [|x l IH]; [reflexivity|].
  cbn [flat_map]. rewrite List.length_app, (Hg x), IH. reflexivity.
Qed.

End MergeFacts.

(** X24.  The left join loses no message: every row of the left frame is
    the start of at least one merged row and every merged row starts with
    a row of the left frame, so the merged frame has at least as many rows;
    it has exactly as many when no key occurs twice in the right frame. *)
Theorem merge_left_keeps_left_rows (key : string) (left right m : frame) :
  merge_left key left right = Returned m ->
  (List.length (rows left) <= List.length (rows m))%nat
  /\ (forall l, In l (rows left) -> exists tail, In (l ++ tail)%list (rows m))
  /\ (forall row, In row (rows m) ->
        exists l tail, In l (rows left) /\ row = (l ++ tail)%list)
  /\ (List.NoDup (List.map (key_of key (columns right)) (rows right)) ->
      List.length (rows m) = List.length (rows left)).
Proof.
  intros H. rewrite (merge_left_rows key left right m H).
  split; [|split; [|split]].
  - apply flat_map_length_ge. intros x. apply merged_rows_of_shape.
  - intros l Hl.
    destruct (merged_rows_of_shape key left right l) as [Hlen Hall].
    destruct (merged_rows_of key left right l) as [|row rs] eqn:E;
      [simpl in Hlen; lia|].
    apply List.Forall_inv in Hall. destruct Hall as (tail & ->).
    exists tail. apply in_flat_map. exists l. split; [exact Hl|].
    rewrite E. left. reflexivity.
  - intros row Hrow. apply in_flat_map in Hrow. destruct Hrow as (l & Hl & Hrow).
    destruct (merged_rows_of_shape key left right l) as [_ Hall].
    rewrite List.Forall_forall in Hall. destruct (Hall row Hrow) as (tail & ->).
    exists l, tail. split; [exact Hl|reflexivity].
  - intros Hnd. apply flat_map_length_eq. intros x.
    apply merged_rows_of_unique, Hnd.
Qed.

Lemma merge_left_keeps_left_rows_witness :
  exists m, merge_left "id" messages_csv categories_csv = Returned m
            /\ (List.length (rows messages_csv) <= List.length (rows m))%nat.
Proof.
  eexists. split; [vm_compute; reflexivity|].
  exact (proj1 (merge_left_keeps_left_rows "id" messages_csv categories_csv _
                  ltac:(vm_compute; reflexivity))).
Defined.


Section MainFacts.


End MainFacts.



(** X27.  [main] never changes the CSV files, and it writes the database
    last: when the run fails (a missing file, or an exception of the merge
    or of [clean_data]) the databases are as they were. *)
Theorem main_writes_only_on_success (argv : list string) (w : world) :
  files (fst (main argv w)) = files w
  /\ (forall e, snd (main argv w) = Failed e ->
                databases (fst (main argv w)) = databases w).
Proof.
  destruct argv as [|a [|m [|c [|d [|x argv]]]]]; try (split; [reflexivity|];
    intros e H; reflexivity).
  unfold main. cbn [print files].
  destruct (load_data (files w) m c) as [df|e0]; [|split; [reflexivity|];
    intros e _; reflexivity].
  destruct (clean_data df) as [out|e0]; cbn [fst snd print files databases].
  - split; [reflexivity|]. intros e H. discriminate.
  - split; [reflexivity|]. intros e _. reflexivity.
Qed.

Lemma main_done_inv (prog m c d : string) (w w' : world) :
  main [prog; m; c; d] w = (w', Done tt) ->
  exists merged cleaned,
    load_data (files w) m c = Done merged
    /\ clean_data merged = Returned cleaned
    /\ databases w' = save_data cleaned d (databases w)
    /\ load_table d (databases w') = Returned cleaned
    /\ files w' = files w
    /\ stdout w' = (stdout w ++ [LoadingData m c; CleaningData; SavingData d;
                                 CleanedDataSaved])%list.
Proof.
  unfold main. cbn [print files].
  destruct (load_data (files w) m c) as [merged|e] eqn:E1; [|discriminate].
  destruct (clean_data merged) as [cleaned|e] eqn:E2; [|discriminate].
  intros H. injection H as <-. exists merged, cleaned.
  cbn [print files databases stdout].
  split; [reflexivity|]. split; [exact E2|]. split; [reflexivity|].
  split; [apply load_table_after_save|]. split; [reflexivity|].
  rewrite <- !List.app_assoc. reflexivity.
Qed.

(** X28.  A run of [main] that ends without exception has merged, cleaned
    and saved, in this order: the database file holds the cleaned frame
    under [DisasterResponse_table], the loader of the training script gets
    this frame back, and four lines were printed. *)
Theorem main_success (prog m c d : string) (w w' : world) :
  main [prog; m; c; d] w = (w', Done tt) ->
  exists merged cleaned,
    load_data (files w) m c = Done merged
    /\ clean_data merged = Returned cleaned
    /\ databases w' = save_data cleaned d (databases w)
    /\ load_table d (databases w') = Returned cleaned
    /\ files w' = files w
    /\ stdout w' = (stdout w ++ [LoadingData m c; CleaningData; SavingData d;
                                 CleanedDataSaved])%list.
Proof. apply main_done_inv. Qed.

Lemma main_success_witness :
  exists w' cleaned,
    main ["process_data.py"; "messages.csv"; "categories.csv"; "Disaster.db"]
         sample_world = (w', Done tt)
    /\ load_table "Disaster.db" (databases w') = Returned cleaned.
Proof.
  destruct (main ["process_data.py"; "messages.csv"; "categories.csv"; "Disaster.db"]
                 sample_world) as [w' r] eqn:E.
  assert (Hr : r = Done tt).
  { pose proof (f_equal snd E) as H. cbn [snd] in H. rewrite <- H.
    vm_compute. reflexivity. }
  subst r.
  destruct (main_success _ _ _ _ _ _ E) as (merged & cleaned & _ & _ & _ & H & _).
  exists w', cleaned. split; [reflexivity|exact H].
Defined.

Section EndToEnd.

Lemma merge_left_columns (key : string) (left right m : frame) :
  merge_left key left right = Returned m ->
  columns m
  = (let right_labels := drop_label key (columns right) in
     let overlap :=
       List.filter (fun l => negb (String.eqb l key)
                             && existsb (String.eqb l) right_labels)
                   (columns left) in
     List.map (with_suffix "_x" overlap) (columns left)
     ++ List.map (with_suffix "_y" overlap) right_labels)%list.
Proof.
  unfold merge_left.
  destruct (_ || _)%bool; [discriminate|].
  destruct (_ || _)%bool; [discriminate|].
  intros H. injection H as <-. reflexivity.
Qed.

Lemma count_label_in (name : string) (labels : list string) :
  count_label name labels <> 0%nat -> In name labels.
Proof.
  intros H. destruct (in_dec string_dec name labels) as [Hin|Hn]; [exact Hin|].
  apply count_label_zero in Hn. contradiction.
Qed.

Lemma missing_categories_row (df : frame) (r tl : list cell) :
  In r (rows df) ->
  cells_at "categories" (columns df) r = Missing :: tl ->
  In (pad_to (width_of (List.map (fun r => match cells_at "categories" (columns df) r with
                                           | c :: _ => split_fields c
                                           | [] => []
                                           end) (rows df))) [])
     (categories_of df).
Proof.
  intros Hr Hc. unfold categories_of, expand. apply in_map.
  apply in_map_iff. exists r. rewrite Hc. split; [reflexivity|exact Hr].
Qed.

End EndToEnd.

(** X29.  From the CSV files to the training script: when the message
    table has the columns id, message, original, genre and the category
    table the columns id, categories, the category names
    [load_data_from_db] returns after a run of [main] are the names read
    off the first merged row without [child_alone], which was among
    them. *)
Theorem pipeline_category_names (prog m c d : string) (w w' : world)
    (messages categories : frame) :
  columns messages = ["id"; "message"; "original"; "genre"] ->
  columns categories = ["id"; "categories"] ->
  files w !! m = Some messages ->
  files w !! c = Some categories ->
  main [prog; m; c; d] w = (w', Done tt) ->
  exists merged row rest colnames X y,
    merge_left "id" messages categories = Returned merged
    /\ categories_of merged = row :: rest
    /\ mapM colname row = Returned colnames
    /\ In "child_alone" colnames
    /\ load_data_from_db d (databases w')
       = Returned (X, y, drop_label "child_alone" colnames)
    /\ columns y = drop_label "child_alone" colnames.
Proof.
  intros Hcm Hcc Hm Hc Hmain.
  destruct (main_done_inv _ _ _ _ _ _ Hmain)
    as (merged & cleaned & Hload & Hclean & _ & Htable & _ & _).
  unfold load_data, read_csv in Hload. rewrite Hm, Hc in Hload.
  destruct (merge_left "id" messages categories) as [mg|e] eqn:Hmerge;
    cbn [lift] in Hload; [|discriminate].
  injection Hload as ->.
  pose proof (merge_left_columns _ _ _ _ Hmerge) as Hcols.
  rewrite Hcm, Hcc in Hcols.
  change (columns merged = ["id"; "message"; "original"; "genre"; "categories"])
    in Hcols.
  unfold clean_data in Hclean.
  destruct (clean_data_dedup merged) as [mid|e] eqn:Hmid; cbn [bind] in Hclean;
    [|discriminate].
  destruct (clean_data_dedup_inv merged mid Hmid)
    as (row & rest & colnames & _ & E & Hnames & _ & _ & ->).
  rewrite Hcols in Hclean. unfold drop_column in Hclean. cbn [columns] in Hclean.
  change (drop_label "categories" ["id"; "message"; "original"; "genre"; "categories"])
    with ["id"; "message"; "original"; "genre"] in Hclean.
  destruct (count_label "child_alone"
              (["id"; "message"; "original"; "genre"] ++ colnames) =? 0)%nat eqn:Hca;
    [discriminate|].
  injection Hclean as <-.
  apply Nat.eqb_neq in Hca. apply count_label_in in Hca.
  assert (Hin : In "child_alone" colnames).
  { cbn [List.app] in Hca.
    destruct Hca as [H|[H|[H|[H|H]]]]; try discriminate. exact H. }
  unfold load_data_from_db. rewrite Htable. cbn [bind columns rows].
  change (drop_label "child_alone"
            (["id"; "message"; "original"; "genre"] ++ colnames)%list)
    with ("id" :: "message" :: "original" :: "genre"
          :: drop_label "child_alone" colnames).
  change (count_label "message"
            ("id" :: "message" :: "original" :: "genre"
             :: drop_label "child_alone" colnames))
    with (S (count_label "message"
               ("original" :: "genre" :: drop_label "child_alone" colnames))).
  cbn [bind skipn].
  do 6 eexists. split; [reflexivity|]. split; [exact E|].
  split; [exact Hnames|]. split; [exact Hin|]. split; reflexivity.
Qed.

Lemma pipeline_category_names_witness :
  exists w' X y,
    main ["process_data.py"; "messages.csv"; "categories.csv"; "Disaster.db"]
         sample_world = (w', Done tt)
    /\ load_data_from_db "Disaster.db" (databases w')
       = Returned (X, y, ["related"; "offer"]).
Proof.
  destruct (main ["process_data.py"; "messages.csv"; "categories.csv"; "Disaster.db"]
                 sample_world) as [w' r] eqn:E.
  assert (Hr : r = Done tt).
  { pose proof (f_equal snd E) as H. cbn [snd] in H. rewrite <- H.
    vm_compute. reflexivity. }
  subst r.
  assert (H1 : files sample_world !! "messages.csv" = Some messages_csv)
    by (vm_compute; reflexivity).
  assert (H2 : files sample_world !! "categories.csv" = Some categories_csv)
    by (vm_compute; reflexivity).
  destruct (pipeline_category_names "process_data.py" "messages.csv"
              "categories.csv" "Disaster.db" sample_world w'
              messages_csv categories_csv eq_refl eq_refl H1 H2 E)
    as (merged & row & rest & colnames & X & y & Hmerge & Hcat & Hnames & _ & Hload & _).
  assert (Hm : merge_left "id" messages_csv categories_csv
               = Returned
                   {| columns := ["id"; "message"; "original"; "genre"; "categories"];
                      rows :=
                        [[Int 1; Str "Need water"; Missing; Str "direct";
                          Str "related-1;child_alone-0;offer-2"];
                         [Int 2; Str "Storm coming"; Missing; Str "news";
                          Str "related-1;child_alone-0;offer-0"];
                         [Int 2; Str "Storm coming"; Missing; Str "news";
                          Str "related-1;child_alone-0;offer-0"]] |})
    by (vm_compute; reflexivity).
  rewrite Hm in Hmerge. injection Hmerge as Hmerge. symmetry in Hmerge.
  subst merged. vm_compute in Hcat. injection Hcat as <- _.
  vm_compute in Hnames. injection Hnames as <-.
  exists w', X, y. split; [reflexivity|exact Hload].
Defined.

(** X30.  A message without category record stops the run: a row whose
    [categories] cell is missing (what the left join gives for a message
    that no record matches) makes [clean_data] raise. *)
Theorem clean_data_missing_categories_fails (df : frame) (r tl : list cell) :
  ~ In "child_alone" (columns df) ->
  In r (rows df) ->
  cells_at "categories" (columns df) r = Missing :: tl ->
  exists e, clean_data df = Raised e.
Proof.
  intros Hnc Hr Hcell.
  destruct (clean_data df) as [out|e] eqn:Hclean; [exfalso|eauto].
  unfold clean_data in Hclean.
  destruct (clean_data_dedup df) as [mid|e] eqn:Hmid; cbn [bind] in Hclean;
    [|discriminate].
  destruct (clean_data_dedup_inv df mid Hmid)
    as (row & rest & names & _ & E & Hnames & _ & Hok & ->).
  unfold drop_column in Hclean. cbn [columns] in Hclean.
  destruct (count_label "child_alone" _ =? 0)%nat eqn:Hca; [discriminate|].
  apply Nat.eqb_neq in Hca. apply count_label_in in Hca.
  pose proof (missing_categories_row df r tl Hr Hcell) as Hpad.
  set (wd := width_of _) in Hpad.
  assert (Hlen : List.length (pad_to wd (@nil (option string))) = List.length names).
  { rewrite (categories_of_row_length df row _ rest E Hpad).
    symmetry. apply (mapM_length _ _ _ Hnames). }
  unfold all_fields_ok in Hok. rewrite List.Forall_forall in Hok.
  pose proof (Hok _ Hpad) as Hrow. clear Hok.
  unfold pad_to in Hrow, Hlen. cbn [List.app List.length] in Hrow, Hlen.
  rewrite Nat.sub_0_r in Hrow, Hlen. rewrite List.repeat_length in Hlen.
  destruct wd as [|k].
  - destruct names; [|discriminate]. rewrite List.app_nil_r in Hca.
    unfold drop_label in Hca. apply List.filter_In in Hca.
    apply Hnc, Hca.
  - cbn [repeat] in Hrow. apply List.Forall_inv in Hrow. discriminate.
Qed.

Lemma clean_data_missing_categories_fails_witness :
  exists e,
    clean_data
      {| columns := ["id"; "message"; "original"; "genre"; "categories"];
         rows := [[Int 1; Str "Need water"; Missing; Str "direct";
                   Str "related-1;child_alone-0;offer-2"];
                  [Int 7; Str "Road blocked"; Missing; Str "direct"; Missing]] |}
    = Raised e.
Proof.
  apply (clean_data_missing_categories_fails _
           [Int 7; Str "Road blocked"; Missing; Str "direct"; Missing] []).
  - simpl. intros [H|[H|[H|[H|[H|[]]]]]]; discriminate.
  - right. left. reflexivity.
  - reflexivity.
Defined.

Lemma merge_of_unmatched_message :
  merge_left "id" unmatched_messages_csv categories_csv
  = Returned
      {| columns := ["id"; "message"; "original"; "genre"; "categories"];
         rows := [[Int 1; Str "Need water"; Missing; Str "direct";
                   Str "related-1;child_alone-0;offer-2"];
                  [Int 7; Str "Road blocked"; Missing; Str "direct"; Missing]] |}.
Proof. vm_compute. reflexivity. Qed.
